(** * algo-lab, 01_big-o-and-analysis: benchmarking harness and growth-model fitter

    A shallow embedding of [bench.py] and [growth_models.py].

    Number model.  Python [float] values are embedded as real numbers [R]
    (exact arithmetic: no rounding, overflow or NaN); Python [int] values as
    [Z].  The operations that raise in Python are kept partial: a division
    by zero raises [ZeroDivisionError], [math.sqrt] of a negative number
    raises [ValueError], indexing an empty list raises [IndexError].

    What only floating point can do (an [OverflowError] of [float(n)] on an
    integer beyond the float range, a NaN key in a sort) is outside the model.

    Effects.  [growth_models.py] is pure up to exceptions and lives in the
    error monad [Res].  [bench.py] reads the clock: the value
    [end - start] observed by the [k]-th call of [_time_call] is given by an
    oracle [elapsed k loops], and the number of clock readings made so far
    is threaded through the state-and-error monad [M].  The callable under
    test and the input factory are functions into [Res]: they return or
    raise, the same way at every call. *)

From Stdlib Require Import String.
From Stdlib Require Import Reals Lra Lia ZArith List Bool.
From Stdlib Require Import Permutation Sorted.
Import ListNotations.

Open Scope R_scope.

(** ** Exceptions and the error monad *)

Inductive PyExc : Type :=
| ValueError (msg : string)
| ZeroDivisionError
| IndexError
| StatisticsError
| UserError (tag : nat).   (* anything the benchmarked callable or the factory raises *)

Inductive Res (A : Type) : Type :=
| Ok (x : A)
| Raise (e : PyExc)
| Diverged.                (* a bounded model of a [while] loop ran out of steps *)

Arguments Ok {A} x.
Arguments Raise {A} e.
Arguments Diverged {A}.

Definition res_bind {A B} (m : Res A) (k : A -> Res B) : Res B :=
  match m with
  | Ok x => k x
  | Raise e => Raise e
  | Diverged => Diverged
  end.

Declare Scope res_scope.
Delimit Scope res_scope with res.
Notation "x <- m ;; k" := (res_bind m (fun x => k))
  (at level 61, m at next level, right associativity) : res_scope.
Notation "' p <- m ;; k" := (res_bind m (fun p => k))
  (at level 61, p pattern, m at next level, right associativity) : res_scope.

Definition is_validation_error {A} (r : Res A) : Prop :=
  exists msg, r = Raise (ValueError msg).

(** ** Float primitives *)

Definition Rltb (x y : R) : bool := if Rlt_dec x y then true else false.
Definition Rleb (x y : R) : bool := if Rle_dec x y then true else false.
Definition Rgeb (x y : R) : bool := Rleb y x.
Definition Reqb (x y : R) : bool := if Req_dec_T x y then true else false.

(** [x / y] on floats. *)
Definition fdiv (x y : R) : Res R :=
  if Reqb y 0 then Raise ZeroDivisionError else Ok (x / y).

(** [math.sqrt]. *)
Definition math_sqrt (x : R) : Res R :=
  if Rltb x 0 then Raise (ValueError "math domain error") else Ok (sqrt x).

(** The builtin [sum]: left to right, starting from 0. *)
Definition sum (xs : list R) : R := fold_left Rplus xs 0.

(** [float(len(xs))], as used in [sum(xs) / n]. *)
Definition flen {A} (xs : list A) : R := INR (length xs).

(** [list.sort(key=..., reverse=...)]: a stable sort that only uses [<] on
    the keys.  With [reverse=True] the list is reversed, sorted and reversed
    again, which keeps equal keys in their original order. *)
Section PySort.
Context {A K : Type}.
Variable lt : K -> K -> bool.
Variable key : A -> K.

(** [x] goes in front of the first element whose key is not smaller than
    its own, so that it stays ahead of the equal keys that followed it. *)
Fixpoint insert_stable (x : A) (l : list A) : list A :=
  match l with
  | [] => [x]
  | y :: l' => if lt (key y) (key x) then y :: insert_stable x l'
               else x :: y :: l'
  end.

Fixpoint stable_sort (l : list A) : list A :=
  match l with
  | [] => []
  | x :: l' => insert_stable x (stable_sort l')
  end.

Definition list_sort (reverse : bool) (l : list A) : list A :=
  if reverse then rev (stable_sort (rev l)) else stable_sort l.
End PySort.

(** Comparison of 2-tuples of floats: the first component that differs
    decides. *)
Definition tuple_lt (p q : R * R) : bool :=
  if Reqb (fst p) (fst q) then Rltb (snd p) (snd q) else Rltb (fst p) (fst q).

(** ** growth_models.py *)

Module GrowthModels.

Local Open Scope res_scope.

Definition _safe_log2 (n : R) : R := ln (Rmax 2 n) / ln 2.

Definition f_const (n : R) : R := 1.
Definition f_log_n (n : R) : R := _safe_log2 n.
Definition f_n (n : R) : R := n.
Definition f_n_log_n (n : R) : R := let nn := n in nn * _safe_log2 nn.
Definition f_n2 (n : R) : R := let nn := n in nn * nn.
Definition f_n3 (n : R) : R := let nn := n in nn * nn * nn.

Module Model.
Record t : Type := mk { name : string; f : R -> R }.
End Model.

Definition DEFAULT_MODELS : list Model.t :=
  [ Model.mk "1" f_const;
    Model.mk "log n" f_log_n;
    Model.mk "n" f_n;
    Model.mk "n log n" f_n_log_n;
    Model.mk "n^2" f_n2;
    Model.mk "n^3" f_n3 ].

Module FitResult.
Record t : Type := mk { model : Model.t; a : R; b : R; r2 : R; rmse : R }.
End FitResult.

(** The body of the [for x, y in zip(xs, ys)] loop of [_ols_fit_affine],
    on the pair of accumulators [(sxx, sxy)]. *)
Definition ols_step (mean_x mean_y : R) (acc : R * R) (xy : R * R) : R * R :=
  let dx := fst xy - mean_x in
  (fst acc + dx * dx, snd acc + dx * (snd xy - mean_y)).

Definition _ols_fit_affine (xs ys : list R) : Res (R * R) :=
  if negb (length xs =? length ys)%nat then
    Raise (ValueError "xs and ys must have the same length")
  else if (length xs <? 2)%nat then
    Raise (ValueError "Need at least 2 points to fit a line")
  else
    mean_x <- fdiv (sum xs) (flen xs) ;;
    mean_y <- fdiv (sum ys) (flen xs) ;;
    let acc := fold_left (ols_step mean_x mean_y) (combine xs ys) (0, 0) in
    let sxx := fst acc in
    let sxy := snd acc in
    if Rltb (Rabs sxx) 1e-30 then
      Ok (0, mean_y)
    else
      a <- fdiv sxy sxx ;;
      let b := mean_y - a * mean_x in
      Ok (a, b).

(** The body of the loop of [_r2_and_rmse], on [(ss_res, ss_tot)]. *)
Definition r2_step (a b mean_y : R) (acc : R * R) (xy : R * R) : R * R :=
  let y_hat := a * fst xy + b in
  let err := snd xy - y_hat in
  let dy := snd xy - mean_y in
  (fst acc + err * err, snd acc + dy * dy).

Definition _r2_and_rmse (xs ys : list R) (a b : R) : Res (R * R) :=
  mean_y <- fdiv (sum ys) (flen xs) ;;
  let acc := fold_left (r2_step a b mean_y) (combine xs ys) (0, 0) in
  let ss_res := fst acc in
  let ss_tot := snd acc in
  q <- fdiv ss_res (flen xs) ;;
  rmse <- math_sqrt q ;;
  r2 <- (if Rltb (Rabs ss_tot) 1e-30 then
           Ok (if Rltb ss_res 1e-30 then 1 else 0)
         else
           q' <- fdiv ss_res ss_tot ;; Ok (1 - q')) ;;
  Ok (r2, rmse).

Definition fit_model (n_values : list Z) (y_values : list R) (model : Model.t)
  : Res FitResult.t :=
  if negb (length n_values =? length y_values)%nat then
    Raise (ValueError "n_values and y_values must have the same length")
  else if (length n_values <? 2)%nat then
    Raise (ValueError "Need at least 2 points to fit a model")
  else
    let xs := map (fun n => Model.f model (IZR n)) n_values in
    let ys := y_values in
    '(a, b) <- _ols_fit_affine xs ys ;;
    '(r2, rmse) <- _r2_and_rmse xs ys a b ;;
    Ok (FitResult.mk model a b r2 rmse).

(** The list comprehension [[fit_model(n_values, y_values, m) for m in models]]:
    the first exception ends it. *)
Fixpoint fit_each (n_values : list Z) (y_values : list R) (models : list Model.t)
  : Res (list FitResult.t) :=
  match models with
  | [] => Ok []
  | m :: ms =>
      r <- fit_model n_values y_values m ;;
      rs <- fit_each n_values y_values ms ;;
      Ok (r :: rs)
  end.

Definition key_first (r : FitResult.t) : R * R := (FitResult.r2 r, - FitResult.rmse r).
Definition key_second (r : FitResult.t) : R * R := (- FitResult.r2 r, FitResult.rmse r).

Definition fit_all_models (n_values : list Z) (y_values : list R)
  (models : list Model.t) : Res (list FitResult.t) :=
  results <- fit_each n_values y_values models ;;
  let results := list_sort tuple_lt key_first true results in
  let results := list_sort tuple_lt key_second false results in
  Ok results.


End GrowthModels.

(** ** bench.py *)

(** [sorted(data)] on floats. *)
Definition sorted (data : list R) : list R := stable_sort Rltb (fun x => x) data.

(** [statistics.median]: the middle element of the sorted data, or the mean
    of the two middle elements when there is an even number of them. *)
Definition statistics_median (data : list R) : Res R :=
  let data := sorted data in
  let n := length data in
  if (n =? 0)%nat then Raise StatisticsError
  else if (n mod 2 =? 1)%nat then Ok (nth (n / 2) data 0)
  else
    let i := (n / 2)%nat in
    Ok ((nth (i - 1) data 0 + nth i data 0) / 2).

(** State-and-error monad: the state counts the clock readings
    ([_time_call] invocations) made so far. *)
Definition M (A : Type) : Type := nat -> Res (A * nat).

Definition ret {A} (x : A) : M A := fun k => Ok (x, k).

Definition bind {A B} (m : M A) (f : A -> M B) : M B :=
  fun k =>
    match m k with
    | Ok (x, k') => f x k'
    | Raise e => Raise e
    | Diverged => Diverged
    end.

Definition lift {A} (r : Res A) : M A :=
  fun k =>
    match r with
    | Ok x => Ok (x, k)
    | Raise e => Raise e
    | Diverged => Diverged
    end.

Definition diverge {A} : M A := fun _ => Diverged.

Declare Scope bench_scope.
Delimit Scope bench_scope with bench.
Notation "x <- m ;; k" := (bind m (fun x => k))
  (at level 61, m at next level, right associativity) : bench_scope.
Notation "' p <- m ;; k" := (bind m (fun p => k))
  (at level 61, p pattern, m at next level, right associativity) : bench_scope.

Module Bench.

Local Open Scope bench_scope.

Module BenchConfig.
Record t : Type := mk {
  warmup_runs : Z;
  repeats : Z;
  min_time_per_repeat : R;
  max_loops : Z;
  collect_distribution : bool
}.
(** [BenchConfig()]. *)
Definition default : t := mk 2 7 0.02 1000000 false.
End BenchConfig.

Module BenchResult.
Record t : Type := mk {
  n : Z;
  seconds : R;
  loops : Z;
  samples : option (list R)
}.
End BenchResult.

(** [for _ in range(count): func()], where [func] is the outcome of one call:
    nothing is called when [count <= 0]. *)
Definition run_calls (func : Res unit) (count : Z) : Res unit :=
  if (0 <? count)%Z then func else Ok tt.

(** [if total <= 0: total = 1e-12]. *)
Definition clamp_total (total : R) : R :=
  if Rleb total 0 then 1e-12 else total.

Section Harness.
(** [elapsed k loops] is [end - start] as read by the [k]-th call of
    [_time_call], which ran [loops] calls. *)
Variable elapsed : nat -> Z -> R.

Definition _time_call (func : Res unit) (loops : Z) : M R :=
  fun k =>
    match run_calls func loops with
    | Ok _ => Ok (elapsed k loops, S k)
    | Raise e => Raise e
    | Diverged => Diverged
    end.

(** The [while] loop of [_choose_loops], on the variables [(loops, total)];
    [fuel] bounds the number of iterations. *)
Fixpoint choose_loops_while (fuel : nat) (func : Res unit) (cfg : BenchConfig.t)
  (loops : Z) (total : R) : M (Z * R) :=
  if Rltb total (BenchConfig.min_time_per_repeat cfg)
     && (loops <? BenchConfig.max_loops cfg)%Z then
    match fuel with
    | O => diverge
    | S fuel' =>
        let loops := (loops * 2)%Z in
        total <- _time_call func loops ;;
        let total := clamp_total total in
        choose_loops_while fuel' func cfg loops total
    end
  else ret (loops, total).

(** [loops] doubles from 1 while it is below [max_loops]: that many
    iterations are always enough (see [loop_bound_enough]). *)
Definition loop_bound (cfg : BenchConfig.t) : nat :=
  Z.to_nat (Z.log2_up (BenchConfig.max_loops cfg)).

Definition _choose_loops (func : Res unit) (cfg : BenchConfig.t) : M Z :=
  let loops := 1%Z in
  total <- _time_call func loops ;;
  let total := clamp_total total in
  if Rgeb total (BenchConfig.min_time_per_repeat cfg) then ret 1%Z
  else
    '(loops, _) <- choose_loops_while (loop_bound cfg) func cfg loops total ;;
    ret (Z.min loops (BenchConfig.max_loops cfg)).

(** The loop [for _ in range(count)] of [benchmark_one_n] that times one
    batch per iteration and appends the per-call estimate. *)
Fixpoint sample_batches (count : nat) (thunk : Res unit) (loops : Z)
  (per_call_samples : list R) : M (list R) :=
  match count with
  | O => ret per_call_samples
  | S count' =>
      total <- _time_call thunk loops ;;
      per_call <- lift (fdiv total (IZR loops)) ;;
      sample_batches count' thunk loops (per_call_samples ++ [per_call])
  end.

Section Callable.
Variable Input : Type.
Variable func : Input -> Res unit.
Variable make_input : Z -> Res Input.

Definition benchmark_one_n (n : Z) (cfg : BenchConfig.t) : M BenchResult.t :=
  x <- lift (make_input n) ;;
  let thunk := func x in
  _ <- lift (run_calls thunk (Z.max 0 (BenchConfig.warmup_runs cfg))) ;;
  loops <- _choose_loops thunk cfg ;;
  per_call_samples <-
    sample_batches (Z.to_nat (Z.max 1 (BenchConfig.repeats cfg))) thunk loops [] ;;
  median <- lift (statistics_median per_call_samples) ;;
  ret (BenchResult.mk n median loops
         (if BenchConfig.collect_distribution cfg
          then Some per_call_samples else None)).

(** The loop [for n in n_values: results.append(...)]. *)
Fixpoint series_loop (n_values : list Z) (cfg : BenchConfig.t)
  (results : list BenchResult.t) : M (list BenchResult.t) :=
  match n_values with
  | [] => ret results
  | n :: rest =>
      r <- benchmark_one_n n cfg ;;
      series_loop rest cfg (results ++ [r])
  end.

Definition benchmark_series (n_values : list Z) (cfg : BenchConfig.t)
  : M (list BenchResult.t) :=
  series_loop n_values cfg [].
End Callable.
End Harness.

Definition to_xy (results : list BenchResult.t) : list Z * list R :=
  (map BenchResult.n results, map BenchResult.seconds results).

End Bench.

(** ** Specification-side definitions *)

(** The regression formulas of the specification, written with sums over
    the points instead of the accumulator loops of the code. *)
Module OlsSpec.

(** [Σ l]. *)
Definition big_sum (l : list R) : R := fold_right Rplus 0 l.

(** [x̄ = (Σ x_i) / n]. *)
Definition mean (xs : list R) : R := big_sum xs / INR (length xs).






(** [ss_res = Σ (y_i − ŷ_i)²] with [ŷ_i = a·x_i + b]. *)
Definition ss_res (xs ys : list R) (a b : R) : R :=
  big_sum (map (fun p => (snd p - (a * fst p + b)) * (snd p - (a * fst p + b)))
             (combine xs ys)).

(** [ss_tot = Σ (y_i − ȳ)²]. *)
Definition ss_tot (ys : list R) : R :=
  big_sum (map (fun y => (y - mean ys) * (y - mean ys)) ys).

Definition r2 (xs ys : list R) (a b : R) : R :=
  if Rlt_dec (Rabs (ss_tot ys)) 1e-30 then
    if Rlt_dec (Rabs (ss_res xs ys a b)) 1e-30 then 1 else 0
  else 1 - ss_res xs ys a b / ss_tot ys.

Definition rmse (xs ys : list R) (a b : R) : R :=
  sqrt (ss_res xs ys a b / INR (length xs)).

End OlsSpec.

(** In a list sorted by [key], [x] may stand before [y]: the key of [y] is
    not smaller than that of [x]. *)
Definition key_le {A K : Type} (lt : K -> K -> bool) (key : A -> K) (x y : A) : Prop :=
  lt (key y) (key x) = false.





(** The median in words: the middle value of the ordered samples, or the
    mean of the two middle values. *)
Definition is_median (m : R) (l : list R) : Prop :=
  exists s, Permutation s l /\ StronglySorted Rle s /\
    m = if Nat.odd (length l) then nth (length l / 2) s 0
        else (nth (length l / 2 - 1) s 0 + nth (length l / 2) s 0) / 2.

(** The samples other than the [i]-th. *)
Definition others (i : nat) (l : list R) : list R := firstn i l ++ skipn (S i) l.


(** A callable whose timing is a fixed function [t] of the loop count. *)
Definition deterministic (t : Z -> R) : nat -> Z -> R := fun _ loops => t loops.

(** Timing [loops] calls meets the threshold, after the clamp. *)
Definition meets (t : Z -> R) (cfg : Bench.BenchConfig.t) (loops : Z) : Prop :=
  Bench.clamp_total (t loops) >= Bench.BenchConfig.min_time_per_repeat cfg.

(** The value of [total] after [j] iterations of the [while] loop of
    [_choose_loops] entered with [total] and [loops], the next clock reading
    being the [k]-th. *)
Definition total_at (elapsed : nat -> Z -> R) (total : R) (k : nat) (loops : Z)
  (j : nat) : R :=
  match j with
  | O => total
  | S j' => Bench.clamp_total (elapsed (k + j')%nat (loops * 2 ^ Z.of_nat j)%Z)
  end.

(** The same configuration with another [min_time_per_repeat]. *)
Definition with_min_time (cfg : Bench.BenchConfig.t) (min_time : R)
  : Bench.BenchConfig.t :=
  Bench.BenchConfig.mk (Bench.BenchConfig.warmup_runs cfg)
    (Bench.BenchConfig.repeats cfg) min_time
    (Bench.BenchConfig.max_loops cfg)
    (Bench.BenchConfig.collect_distribution cfg).

(** A callable every batch of which is timed at one second, and a
    configuration whose loop cap is 0. *)
Definition unit_time : Z -> R := fun _ => 1.
Definition cfg_zero_cap : Bench.BenchConfig.t :=
  Bench.BenchConfig.mk 2 7 0.02 0 false.

(** A callable timed at [loops / 100] seconds for [loops] calls. *)
Definition linear_time : Z -> R := fun loops => IZR loops / 100.

(** A clock whose reading number 3 is inflated 100 times: every other
    batch is timed at one second. *)
Definition spiky_clock : nat -> Z -> R :=
  fun k _ => if (k =? 3)%nat then 100 else 1.

(** A factory and a callable that never raise. *)
Definition id_factory : Z -> Res Z := fun n => Ok n.
Definition quiet_func : Z -> Res unit := fun _ => Ok tt.

(** Five recorded batches, no warm-up, samples kept. *)
Definition cfg_five_repeats : Bench.BenchConfig.t :=
  Bench.BenchConfig.mk 0 5 0.02 1000000 true.

(** The per-call estimates of [count] batches of [loops] calls, the first of
    which is the [k]-th clock reading. *)
Definition estimates (elapsed : nat -> Z -> R) (k : nat) (loops : Z) (count : nat)
  : list R :=
  map (fun i => elapsed (k + i)%nat loops / IZR loops) (seq 0 count).

(** ** main.py and cases.py: choosing the sizes *)

Module Cli.

(** The builtin [min] of a sequence; it raises on an empty one. *)
Definition py_min (l : list Z) : Res Z :=
  match l with
  | [] => Raise (ValueError "min() arg is an empty sequence")
  | x :: rest => Ok (fold_left Z.min rest x)
  end.

(** [before != ns2] on lists of integers. *)
Definition list_neqb (l1 l2 : list Z) : bool :=
  if list_eq_dec Z.eq_dec l1 l2 then false else true.

Definition clamp_warning : string :=
  "Clamped n for cubic_triples to <= 120 to avoid extremely long runs.".

Definition _clamp_ns_for_case (case_name : string) (ns : list Z)
  : Res (list Z * option string) :=
  let ns2 := ns in
  if String.eqb case_name "cubic_triples" then
    let max_n := 120%Z in
    let before := ns2 in
    let ns2 := filter (fun n => (n <=? max_n)%Z) ns2 in
    res_bind
      (match ns2 with
       | [] => res_bind (py_min before) (fun m => Ok [Z.min max_n m])
       | _ :: _ => Ok ns2
       end)
      (fun ns2 =>
         if list_neqb before ns2 then Ok (ns2, Some clamp_warning)
         else Ok (ns2, None))
  else Ok (ns2, None).

End Cli.

Module Cases.

(** The loop of [geometric_ns], on the variables [n] and [ns]. *)
Fixpoint geometric_loop (steps : nat) (factor : Z) (n : Z) (ns : list Z) : list Z :=
  match steps with
  | O => ns
  | S steps' => geometric_loop steps' factor (n * factor)%Z (ns ++ [n])
  end.

Definition geometric_ns (start factor steps : Z) : list Z :=
  geometric_loop (Z.to_nat steps) factor start [].

(** [list(range(n))]. *)
Definition _make_list (n : Z) : list Z := map Z.of_nat (seq 0 (Z.to_nat n)).

(** The case [constant_index]: its factory and its callable
    [xs[len(xs) // 2]]; the index is never negative, so the lookup raises
    only when it is not below the length. *)
Definition constant_index_make_input (n : Z) : Res (list Z) := Ok (_make_list n).

Definition constant_index_func (xs : list Z) : Res Z :=
  match nth_error xs (length xs / 2) with
  | Some v => Ok v
  | None => Raise IndexError
  end.

End Cases.

(** The harness calls the callable for its timing and drops what it
    returns. *)
Definition drop_value {A B : Type} (f : A -> Res B) : A -> Res unit :=
  fun x => res_bind (f x) (fun _ => Ok tt).




(** A callable that raises [e] whatever its input. *)
Definition failing_func (e : PyExc) : Z -> Res unit := fun _ => Raise e.

(** A callable that raises [IndexError] on a non-positive input, like the
    list lookup [xs[len(xs) // 2]] of the case [constant_index] on the empty
    list that the size 0 gives. *)
Definition picky_func : Z -> Res unit :=
  fun x => if (x <=? 0)%Z then Raise IndexError else Ok tt.

(** A configuration whose loop cap is negative. *)
Definition cfg_negative_cap : Bench.BenchConfig.t :=
  Bench.BenchConfig.mk 2 7 0.02 (-4) false.

(** ** Proofs *)

Import GrowthModels Bench.

(** *** Comparisons *)

Lemma Rltb_true (x y : R) : Rltb x y = true <-> x < y.
Proof. unfold Rltb; destruct (Rlt_dec x y); split; intros; try easy; lra. Qed.

Lemma Rltb_false (x y : R) : Rltb x y = false <-> y <= x.
Proof. unfold Rltb; destruct (Rlt_dec x y); split; intros; try easy; lra. Qed.

Lemma Rleb_true (x y : R) : Rleb x y = true <-> x <= y.
Proof. unfold Rleb; destruct (Rle_dec x y); split; intros; try easy; lra. Qed.

Lemma Rleb_false (x y : R) : Rleb x y = false <-> y < x.
Proof. unfold Rleb; destruct (Rle_dec x y); split; intros; try easy; lra. Qed.

Lemma Reqb_true (x y : R) : Reqb x y = true <-> x = y.
Proof. unfold Reqb; destruct (Req_dec_T x y); split; intros; easy. Qed.

Lemma Reqb_false (x y : R) : Reqb x y = false <-> x <> y.
Proof. unfold Reqb; destruct (Req_dec_T x y); split; intros; easy. Qed.

Lemma fdiv_ok (x y : R) : y <> 0 -> fdiv x y = Ok (x / y).
Proof. intros H; unfold fdiv. apply Reqb_false in H. now rewrite H. Qed.

Lemma fdiv_zero (x : R) : fdiv x 0 = Raise ZeroDivisionError.
Proof. unfold fdiv. now rewrite (proj2 (Reqb_true 0 0) eq_refl). Qed.

Lemma fdiv_inv (x y q : R) : fdiv x y = Ok q -> y <> 0 /\ q = x / y.
Proof.
  unfold fdiv. destruct (Reqb y 0) eqn:E; [discriminate|].
  intros [= <-]. split; [now apply Reqb_false|reflexivity].
Qed.


(** *** Sums *)

Import OlsSpec.


















Lemma fit_model_too_short (ns : list Z) (ys : list R) (m : Model.t) :
  length ns = length ys -> (length ns < 2)%nat ->
  fit_model ns ys m = Raise (ValueError "Need at least 2 points to fit a model").
Proof.
  intros He H. unfold fit_model.
  rewrite (proj2 (Nat.eqb_eq _ _) He). simpl.
  apply Nat.ltb_lt in H. now rewrite H.
Qed.


(** *** Claim C1 *)



(** *** Two points *)





(** *** The stable sort *)

Section StableSort.
Context {A K : Type}.
Variable lt : K -> K -> bool.
Variable key : A -> K.

Hypothesis lt_asym : forall p q, lt p q = true -> lt q p = false.
Hypothesis le_trans : forall p q r,
    lt q p = false -> lt r q = false -> lt r p = false.

Lemma insert_stable_perm (x : A) (l : list A) :
  Permutation (insert_stable lt key x l) (x :: l).
Proof.
  induction l as [|y l IH]; simpl; [reflexivity|].
  destruct (lt (key y) (key x)); [|reflexivity].
  rewrite IH. apply perm_swap.
Qed.

Lemma stable_sort_perm (l : list A) : Permutation (stable_sort lt key l) l.
Proof.
  induction l as [|x l IH]; simpl; [reflexivity|].
  rewrite insert_stable_perm. now constructor.
Qed.


Lemma insert_stable_sorted (x : A) (l : list A) :
  StronglySorted (key_le lt key) l ->
  StronglySorted (key_le lt key) (insert_stable lt key x l).
Proof.
  induction 1 as [|y l Hs IH Hall]; simpl.
  - constructor; constructor.
  - destruct (lt (key y) (key x)) eqn:E.
    + constructor; [assumption|].
      apply (Permutation_Forall (Permutation_sym (insert_stable_perm x l))).
      constructor; [|assumption].
      unfold key_le. now apply lt_asym.
    + constructor; [now constructor|].
      constructor; [exact E|].
      eapply Forall_impl; [|exact Hall].
      intros z Hz. unfold key_le in *. eapply le_trans; eassumption.
Qed.

Lemma stable_sort_sorted (l : list A) :
  StronglySorted (key_le lt key) (stable_sort lt key l).
Proof.
  induction l as [|x l IH]; simpl; [constructor|].
  now apply insert_stable_sorted.
Qed.
End StableSort.

Lemma StronglySorted_nth_error {A} (rel : A -> A -> Prop) (l : list A) :
  StronglySorted rel l ->
  forall i j x y, (i < j)%nat ->
    nth_error l i = Some x -> nth_error l j = Some y -> rel x y.
Proof.
  induction 1 as [|z l Hs IH Hall]; intros i j x y Hij Hi Hj.
  - destruct i; discriminate.
  - destruct j as [|j]; [lia|]. simpl in Hj.
    destruct i as [|i]; simpl in Hi.
    + injection Hi as <-.
      rewrite Forall_forall in Hall. apply Hall. eapply nth_error_In; eassumption.
    + apply (IH i j); [lia|assumption..].
Qed.

Lemma StronglySorted_impl {A} (rel rel' : A -> A -> Prop) (l : list A) :
  (forall x y, rel x y -> rel' x y) ->
  StronglySorted rel l -> StronglySorted rel' l.
Proof.
  intros Himp. induction 1 as [|z l Hs IH Hall]; constructor; [assumption|].
  eapply Forall_impl; [|exact Hall]. intros y. apply Himp.
Qed.




(** *** [fit_all_models] *)



Lemma fit_each_raises (ns : list Z) (ys : list R) (m : Model.t) (ms : list Model.t)
  (e : PyExc) :
  fit_model ns ys m = Raise e -> fit_each ns ys (m :: ms) = Raise e.
Proof. intros H. simpl. now rewrite H. Qed.

Lemma fit_all_models_raises (ns : list Z) (ys : list R) (m : Model.t)
  (ms : list Model.t) (e : PyExc) :
  fit_model ns ys m = Raise e -> fit_all_models ns ys (m :: ms) = Raise e.
Proof.
  intros H. unfold fit_all_models. now rewrite (fit_each_raises _ _ _ _ _ H).
Qed.



(** *** Claim C2 *)



(** *** Claim C6 *)



(** *** Claim C9 *)




(** *** The calibrator *)

Lemma clamp_total_pos (x : R) : 0 < clamp_total x.
Proof.
  unfold clamp_total, Rleb. destruct (Rle_dec x 0); lra.
Qed.

Lemma clamp_total_nonpos (x : R) : x <= 0 -> clamp_total x = 1e-12.
Proof.
  intros H. unfold clamp_total. apply Rleb_true in H. now rewrite H.
Qed.

Lemma clamp_total_id (x : R) : 0 < x -> clamp_total x = x.
Proof.
  intros H. unfold clamp_total. apply Rleb_false in H. now rewrite H.
Qed.

Section Calibrator.
Variable elapsed : nat -> Z -> R.
Variable cfg : BenchConfig.t.

Let min_time := BenchConfig.min_time_per_repeat cfg.
Let cap := BenchConfig.max_loops cfg.

Lemma time_call_ok (loops : Z) (k : nat) :
  _time_call elapsed (Ok tt) loops k = Ok (elapsed k loops, S k).
Proof.
  unfold _time_call, run_calls. now destruct (0 <? loops)%Z.
Qed.

Lemma time_call_raises (e : PyExc) (loops : Z) (k : nat) :
  (0 < loops)%Z -> _time_call elapsed (Raise e) loops k = Raise e.
Proof.
  intros H. unfold _time_call, run_calls.
  apply Z.ltb_lt in H. now rewrite H.
Qed.

(** The loop runs [s] iterations, [s] being the first index at which its
    condition fails; it cannot run out of steps when [fuel] doublings
    take [loops] to the cap. *)
Lemma choose_loops_while_run (fuel : nat) :
  forall (loops : Z) (total : R) (k : nat),
    (1 <= loops)%Z -> (cap <= loops * 2 ^ Z.of_nat fuel)%Z ->
    exists s,
      (s <= fuel)%nat
      /\ choose_loops_while elapsed fuel (Ok tt) cfg loops total k
         = Ok ((loops * 2 ^ Z.of_nat s)%Z, total_at elapsed total k loops s,
               (k + s)%nat)
      /\ (forall j, (j < s)%nat ->
            total_at elapsed total k loops j < min_time
            /\ (loops * 2 ^ Z.of_nat j < cap)%Z)
      /\ ~ (total_at elapsed total k loops s < min_time
            /\ (loops * 2 ^ Z.of_nat s < cap)%Z).
Proof.
  induction fuel as [|fuel IH]; intros loops total k Hpos Hcap.
  - exists 0%nat. simpl. fold min_time cap.
    assert (Hb : (loops <? cap)%Z = false) by (apply Z.ltb_ge; simpl in Hcap; lia).
    rewrite Hb, andb_false_r.
    split; [lia|]. split; [unfold ret; do 3 f_equal; lia|].
    split; [intros j Hj; lia|]. simpl. apply Z.ltb_ge in Hb. lia.
  - simpl choose_loops_while. fold min_time cap.
    destruct (Rltb total min_time && (loops <? cap)%Z) eqn:Hc.
    + apply andb_true_iff in Hc. destruct Hc as [Hc1 Hc2].
      apply Rltb_true in Hc1. apply Z.ltb_lt in Hc2.
      unfold bind at 1. rewrite time_call_ok.
      destruct (IH (loops * 2)%Z (clamp_total (elapsed k (loops * 2)%Z)) (S k))
        as (s & Hs & Hrun & Hbefore & Hstop).
      { lia. }
      { rewrite Nat2Z.inj_succ, Z.pow_succ_r in Hcap by lia. lia. }
      assert (Hshift : forall j,
                 total_at elapsed (clamp_total (elapsed k (loops * 2)%Z)) (S k)
                   (loops * 2) j
                 = total_at elapsed total k loops (S j)).
      { intros [|j]; cbn [total_at].
        - rewrite Nat.add_0_r. reflexivity.
        - f_equal. f_equal; [lia|].
          rewrite !Nat2Z.inj_succ, !Z.pow_succ_r by lia. lia. }
      assert (Hpow : forall j, (loops * 2 * 2 ^ Z.of_nat j
                                = loops * 2 ^ Z.of_nat (S j))%Z).
      { intros j. rewrite Nat2Z.inj_succ, Z.pow_succ_r by lia. lia. }
      exists (S s). split; [lia|].
      rewrite Hrun, Hshift, Hpow. split; [do 2 f_equal; lia|]. split.
      * intros [|j] Hj.
        -- simpl. split; [assumption|lia].
        -- rewrite <- Hshift, <- Hpow. apply Hbefore. lia.
      * rewrite <- Hshift, <- Hpow. exact Hstop.
    + exists 0%nat. split; [lia|].
      split; [unfold ret; simpl; do 3 f_equal; lia|].
      split; [intros j Hj; lia|].
      simpl. rewrite Z.mul_1_r. intros [H1 H2].
      apply Rltb_true in H1. apply Z.ltb_lt in H2.
      rewrite H1, H2 in Hc. discriminate.
Qed.

(** [loop_bound] iterations are enough for a loop that starts at 1. *)
Lemma loop_bound_enough : (cap <= 1 * 2 ^ Z.of_nat (loop_bound cfg))%Z.
Proof.
  unfold loop_bound. fold cap.
  rewrite Z2Nat.id by apply Z.log2_up_nonneg.
  destruct (Z_lt_le_dec 1 cap) as [H|H].
  - pose proof (Z.log2_up_spec cap H). lia.
  - pose proof (Z.pow_pos_nonneg 2 (Z.log2_up cap)) as Hp.
    pose proof (Z.log2_up_nonneg cap). lia.
Qed.

(** [_choose_loops] on a callable that does not raise: either the fast
    path, or the loop ran [s] iterations. *)
Lemma choose_loops_run (k : nat) :
  let total0 := clamp_total (elapsed k 1%Z) in
  (min_time <= total0 ->
   _choose_loops elapsed (Ok tt) cfg k = Ok (1%Z, S k))
  /\ (total0 < min_time ->
      exists s,
        _choose_loops elapsed (Ok tt) cfg k
        = Ok (Z.min (2 ^ Z.of_nat s) cap, (S k + s)%nat)
        /\ (forall j, (j < s)%nat ->
              total_at elapsed total0 (S k) 1 j < min_time
              /\ (2 ^ Z.of_nat j < cap)%Z)
        /\ ~ (total_at elapsed total0 (S k) 1 s < min_time
              /\ (2 ^ Z.of_nat s < cap)%Z)).
Proof.
  intros total0.
  assert (Hunfold :
            _choose_loops elapsed (Ok tt) cfg k
            = (if Rleb min_time total0 then ret 1%Z
               else bind (choose_loops_while elapsed (loop_bound cfg) (Ok tt) cfg
                            1%Z total0)
                      (fun p => ret (Z.min (fst p) cap))) (S k)).
  { unfold _choose_loops. cbv zeta. unfold bind at 1.
    rewrite time_call_ok. cbv beta. fold total0 min_time cap. unfold Rgeb.
    destruct (Rleb min_time total0); [reflexivity|].
    unfold bind. now destruct (choose_loops_while _ _ _ _ _ _ _) as [[[? ?] ?]| |]. }
  rewrite Hunfold. split.
  - intros H. apply Rleb_true in H. now rewrite H.
  - intros H. apply Rleb_false in H. rewrite H.
    destruct (choose_loops_while_run (loop_bound cfg) 1%Z total0 (S k))
      as (s & _ & Hrun & Hbefore & Hstop).
    { lia. }
    { apply loop_bound_enough. }
    exists s. unfold bind. rewrite Hrun. rewrite Z.mul_1_l.
    split; [reflexivity|]. split.
    + intros j Hj. specialize (Hbefore j Hj). now rewrite Z.mul_1_l in Hbefore.
    + now rewrite Z.mul_1_l in Hstop.
Qed.

(** The calibrator always returns on a callable that does not raise, and
    with a cap of at least 1 its result lies between 1 and the cap. *)
Lemma choose_loops_bounds (k : nat) :
  exists loops k',
    _choose_loops elapsed (Ok tt) cfg k = Ok (loops, k')
    /\ (k < k')%nat
    /\ (loops = 0%Z -> cap = 0%Z)
    /\ ((1 <= cap)%Z -> (1 <= loops <= cap)%Z).
Proof.
  destruct (choose_loops_run k) as [Hfast Hslow].
  destruct (Rle_lt_dec min_time (clamp_total (elapsed k 1%Z))) as [H|H].
  - exists 1%Z, (S k). split; [now apply Hfast|]. repeat split; lia.
  - destruct (Hslow H) as (s & Hrun & _ & _).
    exists (Z.min (2 ^ Z.of_nat s) cap), (S k + s)%nat.
    split; [assumption|].
    pose proof (Z.pow_pos_nonneg 2 (Z.of_nat s)) as Hp.
    repeat split; lia.
Qed.
End Calibrator.

(** With a deterministic callable the loop sees the clamped time of
    [2^j] calls at its [j]-th iteration. *)
Lemma total_at_deterministic (t : Z -> R) (k j : nat) :
  total_at (deterministic t) (clamp_total (t 1%Z)) k 1 j
  = clamp_total (t (2 ^ Z.of_nat j)%Z).
Proof.
  destruct j as [|j]; cbn [total_at]; [reflexivity|].
  unfold deterministic. now rewrite Z.mul_1_l.
Qed.

Lemma not_meets_lt (t : Z -> R) (cfg : BenchConfig.t) (loops : Z) :
  ~ meets t cfg loops <->
  clamp_total (t loops) < BenchConfig.min_time_per_repeat cfg.
Proof. unfold meets. split; intros H; lra. Qed.

(** With a loop cap of 0 the slow path returns 0. *)
Lemma choose_loops_zero_cap (elapsed : nat -> Z -> R) (cfg : BenchConfig.t) (k : nat) :
  BenchConfig.max_loops cfg = 0%Z ->
  clamp_total (elapsed k 1%Z) < BenchConfig.min_time_per_repeat cfg ->
  _choose_loops elapsed (Ok tt) cfg k = Ok (0%Z, S k).
Proof.
  intros Hcap Hlt.
  destruct (choose_loops_run elapsed cfg k) as [_ Hslow].
  destruct (Hslow Hlt) as (s & Hrun & Hbefore & _).
  rewrite Hrun, Hcap.
  pose proof (Z.pow_pos_nonneg 2 (Z.of_nat s)) as Hp.
  destruct s as [|s].
  - f_equal. f_equal; lia.
  - destruct (Hbefore 0%nat) as [_ H0]; [lia|]. rewrite Hcap in H0. simpl in H0. lia.
Qed.

(** *** Claim C3 *)

(** C3: for a callable timed by a fixed function [t] of the loop count,
    the calibrator returns 1 when the single-call measurement meets the
    threshold; otherwise, [2^p] being the smallest power of two whose
    measurement meets it, it returns [2^p] capped by [max_loops], and
    [max_loops] when no power of two meets it.  Measurements are compared
    after the clamp, which turns a duration [<= 0] into [1e-12]. *)
Theorem C3_choose_loops_smallest_power_of_two
  (t : Z -> R) (cfg : BenchConfig.t) (k : nat) :
  (meets t cfg 1 ->
   _choose_loops (deterministic t) (Ok tt) cfg k = Ok (1%Z, S k))
  /\ (forall p : nat,
        (0 < p)%nat ->
        (forall j, (j < p)%nat -> ~ meets t cfg (2 ^ Z.of_nat j)) ->
        meets t cfg (2 ^ Z.of_nat p) ->
        exists k', _choose_loops (deterministic t) (Ok tt) cfg k
                   = Ok (Z.min (2 ^ Z.of_nat p) (BenchConfig.max_loops cfg), k'))
  /\ ((forall j : nat, ~ meets t cfg (2 ^ Z.of_nat j)) ->
      exists k', _choose_loops (deterministic t) (Ok tt) cfg k
                 = Ok (BenchConfig.max_loops cfg, k'))
  /\ (forall loops, t loops <= 0 ->
        (meets t cfg loops <-> 1e-12 >= BenchConfig.min_time_per_repeat cfg)).
Proof.
  destruct (choose_loops_run (deterministic t) cfg k) as [Hfast Hslow].
  cbv zeta in Hfast, Hslow.
  change (deterministic t k 1%Z) with (t 1%Z) in Hfast, Hslow.
  split; [|split; [|split]].
  - intros H. apply Hfast. unfold meets in H. lra.
  - intros p Hp Hbelow Hmeets.
    assert (H1 : ~ meets t cfg 1) by (apply (Hbelow 0%nat); lia).
    apply not_meets_lt in H1.
    destruct (Hslow H1) as (s & Hrun & Hbefore & Hstop).
    exists (S k + s)%nat. rewrite Hrun. do 2 f_equal.
    destruct (lt_eq_lt_dec s p) as [[Hsp|Hsp]|Hsp].
    + assert (Hs : ~ meets t cfg (2 ^ Z.of_nat s)) by now apply Hbelow.
      apply not_meets_lt in Hs. rewrite total_at_deterministic in Hstop.
      assert (Hle : (2 ^ Z.of_nat s <= 2 ^ Z.of_nat p)%Z)
        by (apply Z.pow_le_mono_r; lia).
      destruct (Z_lt_le_dec (2 ^ Z.of_nat s) (BenchConfig.max_loops cfg)) as [Hc|Hc];
        [exfalso; apply Hstop; now split|lia].
    + now subst s.
    + destruct (Hbefore p Hsp) as [Hlt _].
      rewrite total_at_deterministic in Hlt. unfold meets in Hmeets. lra.
  - intros Hnever.
    assert (H1 : ~ meets t cfg 1) by apply (Hnever 0%nat).
    apply not_meets_lt in H1.
    destruct (Hslow H1) as (s & Hrun & _ & Hstop).
    exists (S k + s)%nat. rewrite Hrun. do 2 f_equal.
    pose proof (Hnever s) as Hs. apply not_meets_lt in Hs.
    rewrite total_at_deterministic in Hstop.
    destruct (Z_lt_le_dec (2 ^ Z.of_nat s) (BenchConfig.max_loops cfg)) as [Hc|Hc];
      [exfalso; apply Hstop; now split|lia].
  - intros loops Hle. unfold meets. now rewrite clamp_total_nonpos.
Qed.

(** *** Claim C10 *)

(** C10 (amended): for a callable timed by a fixed function of the loop
    count and a loop cap of at least 1, raising [min_time_per_repeat] (the
    other fields unchanged) never lowers the loop count chosen. *)
Theorem C10_choose_loops_monotone
  (t : Z -> R) (cfg : BenchConfig.t) (min1 min2 : R) (k1 k2 : nat) :
  (1 <= BenchConfig.max_loops cfg)%Z ->
  min1 <= min2 ->
  exists loops1 loops2 k1' k2',
    _choose_loops (deterministic t) (Ok tt) (with_min_time cfg min1) k1
    = Ok (loops1, k1')
    /\ _choose_loops (deterministic t) (Ok tt) (with_min_time cfg min2) k2
       = Ok (loops2, k2')
    /\ (loops1 <= loops2)%Z.
Proof.
  intros Hcap Hmin.
  destruct (choose_loops_run (deterministic t) (with_min_time cfg min1) k1)
    as [Hfast1 Hslow1].
  destruct (choose_loops_run (deterministic t) (with_min_time cfg min2) k2)
    as [_ Hslow2].
  destruct (choose_loops_bounds (deterministic t) (with_min_time cfg min2) k2)
    as (l2 & k2' & Hrun2 & _ & _ & Hb2).
  cbv zeta in Hfast1, Hslow1, Hslow2.
  cbn [with_min_time BenchConfig.min_time_per_repeat BenchConfig.max_loops] in *.
  change (deterministic t k1 1%Z) with (t 1%Z) in Hfast1, Hslow1.
  change (deterministic t k2 1%Z) with (t 1%Z) in Hslow2.
  destruct (Rle_lt_dec min1 (clamp_total (t 1%Z))) as [H1|H1].
  - exists 1%Z, l2, (S k1), k2'. split; [now apply Hfast1|].
    split; [assumption|]. specialize (Hb2 Hcap). lia.
  - destruct (Hslow1 H1) as (s1 & Hr1 & Hbefore1 & _).
    destruct Hslow2 as (s2 & Hr2 & _ & Hstop2); [lra|].
    do 4 eexists. split; [exact Hr1|]. split; [exact Hr2|].
    destruct (le_lt_dec s1 s2) as [Hs|Hs].
    + assert (Hle : (2 ^ Z.of_nat s1 <= 2 ^ Z.of_nat s2)%Z)
        by (apply Z.pow_le_mono_r; lia).
      lia.
    + destruct (Hbefore1 s2 Hs) as [Hlt Hc].
      rewrite total_at_deterministic in Hlt, Hstop2.
      exfalso. apply Hstop2. split; [lra|assumption].
Qed.

(** A cap of 1000 loops, thresholds of half a second and of two seconds. *)
Lemma C10_choose_loops_monotone_witness :
  exists loops1 loops2 k1' k2',
    _choose_loops (deterministic unit_time) (Ok tt)
      (with_min_time (BenchConfig.mk 2 7 0.02 1000 false) (1 / 2)) 0%nat = Ok (loops1, k1')
    /\ _choose_loops (deterministic unit_time) (Ok tt)
         (with_min_time (BenchConfig.mk 2 7 0.02 1000 false) 2) 0%nat = Ok (loops2, k2')
    /\ (loops1 <= loops2)%Z.
Proof.
  apply (C10_choose_loops_monotone unit_time (BenchConfig.mk 2 7 0.02 1000 false)).
  - simpl. lia.
  - lra.
Defined.

(** C10 as stated fails when the loop cap is 0: a one-second callable gets
    1 loop for a threshold of half a second (fast path) and 0 loops for a
    threshold of two seconds. *)
Lemma C10_counterexample :
  1 / 2 <= 2
  /\ _choose_loops (deterministic unit_time) (Ok tt)
       (with_min_time cfg_zero_cap (1 / 2)) 0%nat = Ok (1%Z, 1%nat)
  /\ _choose_loops (deterministic unit_time) (Ok tt)
       (with_min_time cfg_zero_cap 2) 0%nat = Ok (0%Z, 1%nat)
  /\ ~ (1 <= 0)%Z.
Proof.
  assert (Hc : clamp_total (unit_time 1%Z) = 1)
    by (apply clamp_total_id; unfold unit_time; lra).
  split; [lra|]. split; [|split; [|lia]].
  - destruct (choose_loops_run (deterministic unit_time)
                (with_min_time cfg_zero_cap (1 / 2)) 0%nat) as [Hfast _].
    apply Hfast. unfold deterministic. rewrite Hc. simpl. lra.
  - apply choose_loops_zero_cap; [reflexivity|].
    unfold deterministic. rewrite Hc. simpl. lra.
Qed.

(** *** The sample aggregator *)

Lemma estimates_succ (elapsed : nat -> Z -> R) (k : nat) (loops : Z) (count : nat) :
  estimates elapsed k loops (S count)
  = elapsed k loops / IZR loops :: estimates elapsed (S k) loops count.
Proof.
  unfold estimates. simpl seq. simpl map. rewrite Nat.add_0_r. f_equal.
  rewrite <- seq_shift, map_map. apply map_ext.
  intros i. now rewrite Nat.add_succ_r.
Qed.

Lemma length_estimates (elapsed : nat -> Z -> R) (k : nat) (loops : Z) (count : nat) :
  length (estimates elapsed k loops count) = count.
Proof. unfold estimates. now rewrite length_map, length_seq. Qed.

Lemma sample_batches_run (elapsed : nat -> Z -> R) (loops : Z) :
  loops <> 0%Z ->
  forall (count : nat) (acc : list R) (k : nat),
    sample_batches elapsed count (Ok tt) loops acc k
    = Ok (acc ++ estimates elapsed k loops count, (k + count)%nat).
Proof.
  intros Hnz. induction count as [|count IH]; intros acc k.
  - simpl. unfold ret, estimates. simpl. now rewrite app_nil_r, Nat.add_0_r.
  - simpl sample_batches. unfold bind at 1. rewrite time_call_ok.
    unfold bind at 1, lift. rewrite fdiv_ok by (now apply not_0_IZR).
    rewrite IH, estimates_succ, <- app_assoc. simpl.
    do 2 f_equal. lia.
Qed.

Lemma sample_batches_zero (elapsed : nat -> Z -> R) (count : nat) (acc : list R)
  (k : nat) :
  sample_batches elapsed (S count) (Ok tt) 0 acc k = Raise ZeroDivisionError.
Proof.
  simpl sample_batches. unfold bind at 1. rewrite time_call_ok.
  unfold bind at 1, lift. now rewrite fdiv_zero.
Qed.

Lemma mod2_odd (n : nat) : (n mod 2 =? 1)%nat = Nat.odd n.
Proof.
  rewrite <- Nat.bit0_mod, Nat.bit0_odd. now destruct (Nat.odd n).
Qed.

Lemma sorted_perm (data : list R) : Permutation (sorted data) data.
Proof. apply stable_sort_perm. Qed.

Lemma sorted_sorted (data : list R) : StronglySorted Rle (sorted data).
Proof.
  unfold sorted.
  eapply StronglySorted_impl;
    [|apply (stable_sort_sorted Rltb (fun x : R => x))].
  - intros x y H. unfold key_le in H. now apply Rltb_false in H.
  - intros p q H. apply Rltb_true in H. apply Rltb_false. lra.
  - intros p q r H1 H2. apply Rltb_false in H1, H2. apply Rltb_false. lra.
Qed.

(** [statistics.median] returns the median of a non-empty list. *)
Lemma statistics_median_ok (data : list R) :
  data <> [] -> exists m, statistics_median data = Ok m /\ is_median m data.
Proof.
  intros Hne. unfold statistics_median.
  pose proof (Permutation_length (sorted_perm data)) as Hlen.
  rewrite Hlen.
  destruct (length data =? 0)%nat eqn:E.
  - apply Nat.eqb_eq in E. destruct data; [contradiction|discriminate].
  - rewrite mod2_odd.
    exists (if Nat.odd (length data) then nth (length data / 2) (sorted data) 0
            else (nth (length data / 2 - 1) (sorted data) 0
                  + nth (length data / 2) (sorted data) 0) / 2).
    split.
    + destruct (Nat.odd (length data)); reflexivity.
    + exists (sorted data). split; [apply sorted_perm|].
      split; [apply sorted_sorted|reflexivity].
Qed.

Section Aggregator.
Variable elapsed : nat -> Z -> R.
Variable Input : Type.
Variable func : Input -> Res unit.
Variable make_input : Z -> Res Input.

Lemma repeats_count_pos (cfg : BenchConfig.t) :
  (1 <= Z.to_nat (Z.max 1 (BenchConfig.repeats cfg)))%nat.
Proof. lia. Qed.

(** [benchmark_one_n] when neither the factory nor the callable raises
    and the calibrated loop count is not 0. *)
Lemma benchmark_one_n_eval (n : Z) (cfg : BenchConfig.t) (k : nat) (x : Input)
  (loops : Z) (kc : nat) :
  make_input n = Ok x -> func x = Ok tt ->
  _choose_loops elapsed (Ok tt) cfg k = Ok (loops, kc) ->
  loops <> 0%Z ->
  let count := Z.to_nat (Z.max 1 (BenchConfig.repeats cfg)) in
  let est := estimates elapsed kc loops count in
  exists m,
    statistics_median est = Ok m /\ is_median m est
    /\ benchmark_one_n elapsed Input func make_input n cfg k
       = Ok (BenchResult.mk n m loops
               (if BenchConfig.collect_distribution cfg then Some est else None),
             (kc + count)%nat).
Proof.
  intros Hx Hf Hl Hnz count est.
  destruct (statistics_median_ok est) as [m [Hm1 Hm2]].
  { intros Hnil. apply (f_equal (@length R)) in Hnil.
    unfold est in Hnil. rewrite length_estimates in Hnil.
    pose proof (repeats_count_pos cfg). simpl in Hnil. unfold count in Hnil. lia. }
  exists m. split; [assumption|]. split; [assumption|].
  unfold benchmark_one_n. unfold bind at 1. rewrite Hx. unfold lift at 1.
  rewrite Hf. unfold bind at 1, lift at 1.
  assert (Hw : run_calls (Ok tt) (Z.max 0 (BenchConfig.warmup_runs cfg)) = Ok tt).
  { unfold run_calls. now destruct (0 <? _)%Z. }
  rewrite Hw. unfold bind at 1. rewrite Hl.
  unfold bind at 1. fold count. rewrite (sample_batches_run elapsed loops Hnz).
  simpl app. fold est. unfold bind, lift. rewrite Hm1. reflexivity.
Qed.

(** With a calibrated loop count of 0 the per-call division raises. *)
Lemma benchmark_one_n_zero (n : Z) (cfg : BenchConfig.t) (k : nat) (x : Input)
  (kc : nat) :
  make_input n = Ok x -> func x = Ok tt ->
  _choose_loops elapsed (Ok tt) cfg k = Ok (0%Z, kc) ->
  benchmark_one_n elapsed Input func make_input n cfg k = Raise ZeroDivisionError.
Proof.
  intros Hx Hf Hl.
  unfold benchmark_one_n. unfold bind at 1. rewrite Hx. unfold lift at 1.
  rewrite Hf. unfold bind at 1, lift at 1.
  assert (Hw : run_calls (Ok tt) (Z.max 0 (BenchConfig.warmup_runs cfg)) = Ok tt).
  { unfold run_calls. now destruct (0 <? _)%Z. }
  rewrite Hw. unfold bind at 1. rewrite Hl.
  unfold bind at 1.
  destruct (Z.to_nat (Z.max 1 (BenchConfig.repeats cfg))) as [|c] eqn:E; [lia|].
  now rewrite sample_batches_zero.
Qed.

(** A callable that raises makes [benchmark_one_n] raise the same
    exception: at the latest, the calibrator's first call raises. *)
Lemma benchmark_one_n_propagates (n : Z) (cfg : BenchConfig.t) (k : nat)
  (x : Input) (e : PyExc) :
  make_input n = Ok x -> func x = Raise e ->
  benchmark_one_n elapsed Input func make_input n cfg k = Raise e.
Proof.
  intros Hx Hf.
  unfold benchmark_one_n. unfold bind at 1. rewrite Hx. unfold lift at 1.
  rewrite Hf. unfold bind at 1, lift at 1, run_calls.
  destruct (0 <? Z.max 0 (BenchConfig.warmup_runs cfg))%Z; [reflexivity|].
  unfold bind at 1, _choose_loops. cbv zeta. unfold bind at 1.
  now rewrite time_call_raises by lia.
Qed.

Lemma benchmark_one_n_factory_raises (n : Z) (cfg : BenchConfig.t) (k : nat)
  (e : PyExc) :
  make_input n = Raise e ->
  benchmark_one_n elapsed Input func make_input n cfg k = Raise e.
Proof.
  intros Hx. unfold benchmark_one_n. unfold bind at 1. now rewrite Hx.
Qed.
End Aggregator.

(** *** One outlier among five samples *)

Lemma others_perm (l : list R) :
  forall i, (i < length l)%nat -> exists x, Permutation (x :: others i l) l.
Proof.
  induction l as [|y l IH]; intros i Hi; simpl in Hi; [lia|].
  destruct i as [|i].
  - exists y. unfold others. simpl. reflexivity.
  - destruct (IH i) as [x Hx]; [lia|].
    exists x. unfold others in *. simpl.
    rewrite perm_swap. now constructor.
Qed.

Lemma sorted_five (a b c d e : R) :
  StronglySorted Rle [a; b; c; d; e] -> a <= b /\ b <= c /\ c <= d /\ d <= e.
Proof.
  intros H.
  repeat match goal with
         | H : StronglySorted _ (_ :: _) |- _ =>
             apply StronglySorted_inv in H; destruct H as [H ?]
         | H : Forall _ (_ :: _) |- _ =>
             apply Forall_cons_iff in H; destruct H as [? H]
         end.
  repeat split; assumption.
Qed.

(** The median of five samples lies within the range of any four of them:
    no single sample can drag it out. *)
Lemma median_of_five_robust (l : list R) (m : R) (i : nat) :
  length l = 5%nat -> (i < 5)%nat -> is_median m l ->
  exists lo hi, In lo (others i l) /\ In hi (others i l) /\ lo <= m <= hi.
Proof.
  intros Hlen Hi (s & Hperm & Hsorted & Hm).
  rewrite Hlen in Hm. simpl in Hm.
  destruct (others_perm l i) as [x Hx]; [lia|].
  pose proof (Permutation_length Hperm) as Hls. rewrite Hlen in Hls.
  destruct s as [|s0 [|s1 [|s2 [|s3 [|s4 [|? ?]]]]]]; try discriminate.
  simpl in Hm. subst m.
  destruct (sorted_five _ _ _ _ _ Hsorted) as (H01 & H12 & H23 & H34).
  assert (Hxs : Permutation (x :: others i l) [s0; s1; s2; s3; s4])
    by (now rewrite Hx, Hperm).
  assert (Hin : In x [s0; s1; s2; s3; s4])
    by (apply (Permutation_in _ Hxs); now left).
  assert (Hpick : forall l1 l2 lo hi,
             [s0; s1; s2; s3; s4] = l1 ++ x :: l2 ->
             In lo (l1 ++ l2) -> In hi (l1 ++ l2) -> lo <= s2 <= hi ->
             exists lo hi, In lo (others i l) /\ In hi (others i l) /\ lo <= s2 <= hi).
  { intros l1 l2 lo hi Heq Hlo Hhi Hb. rewrite Heq in Hxs.
    apply Permutation_cons_app_inv in Hxs.
    exists lo, hi. split; [|split; [|assumption]].
    - apply (Permutation_in _ (Permutation_sym Hxs)); assumption.
    - apply (Permutation_in _ (Permutation_sym Hxs)); assumption. }
  simpl in Hin. destruct Hin as [<-|[<-|[<-|[<-|[<-|[]]]]]].
  - apply (Hpick [] [s1; s2; s3; s4] s1 s4); [reflexivity|simpl; tauto..|lra].
  - apply (Hpick [s0] [s2; s3; s4] s0 s4); [reflexivity|simpl; tauto..|lra].
  - apply (Hpick [s0; s1] [s3; s4] s0 s4); [reflexivity|simpl; tauto..|lra].
  - apply (Hpick [s0; s1; s2] [s4] s0 s4); [reflexivity|simpl; tauto..|lra].
  - apply (Hpick [s0; s1; s2; s3] [] s0 s3); [reflexivity|simpl; tauto..|lra].
Qed.

(** *** [benchmark_one_n], case by case *)

Section OneSize.
Variable elapsed : nat -> Z -> R.
Variable Input : Type.
Variable func : Input -> Res unit.
Variable make_input : Z -> Res Input.

Lemma benchmark_one_n_diverges (n : Z) (cfg : BenchConfig.t) (k : nat) (x : Input) :
  make_input n = Ok x -> func x = Diverged ->
  benchmark_one_n elapsed Input func make_input n cfg k = Diverged.
Proof.
  intros Hx Hf.
  unfold benchmark_one_n. unfold bind at 1. rewrite Hx. unfold lift at 1.
  rewrite Hf. unfold bind at 1, lift at 1, run_calls.
  destruct (0 <? Z.max 0 (BenchConfig.warmup_runs cfg))%Z; [reflexivity|].
  unfold bind at 1, _choose_loops. cbv zeta. unfold bind at 1.
  unfold _time_call, run_calls. reflexivity.
Qed.

(** Every way [benchmark_one_n] can end. *)
Lemma benchmark_one_n_cases (n : Z) (cfg : BenchConfig.t) (k : nat) :
  match benchmark_one_n elapsed Input func make_input n cfg k with
  | Ok (r, k') =>
      exists x loops kc,
        make_input n = Ok x /\ func x = Ok tt
        /\ _choose_loops elapsed (Ok tt) cfg k = Ok (loops, kc)
        /\ loops <> 0%Z
        /\ ((1 <= BenchConfig.max_loops cfg)%Z ->
            (1 <= loops <= BenchConfig.max_loops cfg)%Z)
        /\ is_median (BenchResult.seconds r)
             (estimates elapsed kc loops
                (Z.to_nat (Z.max 1 (BenchConfig.repeats cfg))))
        /\ r = BenchResult.mk n (BenchResult.seconds r) loops
                 (if BenchConfig.collect_distribution cfg
                  then Some (estimates elapsed kc loops
                               (Z.to_nat (Z.max 1 (BenchConfig.repeats cfg))))
                  else None)
        /\ statistics_median
             (estimates elapsed kc loops
                (Z.to_nat (Z.max 1 (BenchConfig.repeats cfg))))
           = Ok (BenchResult.seconds r)
  | Raise e =>
      make_input n = Raise e
      \/ (exists x, make_input n = Ok x /\ func x = Raise e)
      \/ (e = ZeroDivisionError /\ BenchConfig.max_loops cfg = 0%Z)
  | Diverged =>
      make_input n = Diverged
      \/ (exists x, make_input n = Ok x /\ func x = Diverged)
  end.
Proof.
  destruct (make_input n) as [x| e |] eqn:Hx.
  - destruct (func x) as [[]| e |] eqn:Hf.
    + destruct (choose_loops_bounds elapsed cfg k)
        as (loops & kc & Hl & _ & Hzero & Hb).
      destruct (Z.eq_dec loops 0) as [->|Hnz].
      * rewrite (benchmark_one_n_zero elapsed Input func make_input n cfg k x kc Hx Hf Hl).
        right; right. split; [reflexivity|now apply Hzero].
      * destruct (benchmark_one_n_eval elapsed Input func make_input n cfg k x
                    loops kc Hx Hf Hl Hnz) as (m & Hm1 & Hm2 & Hrun).
        rewrite Hrun. exists x, loops, kc. cbn [BenchResult.seconds].
        repeat (split; [first [assumption | reflexivity]|]).
        assumption.
    + rewrite (benchmark_one_n_propagates elapsed Input func make_input n cfg k x e Hx Hf).
      right; left. now exists x.
    + rewrite (benchmark_one_n_diverges n cfg k x Hx Hf).
      right. now exists x.
  - rewrite (benchmark_one_n_factory_raises elapsed Input func make_input n cfg k e Hx).
    now left.
  - unfold benchmark_one_n. unfold bind at 1. rewrite Hx. simpl. now left.
Qed.
End OneSize.

(** *** Claim C4 *)

(** C4: the [seconds] of the [BenchResult] that [benchmark_one_n] returns is
    the median of the per-call estimates (each batch's time over the
    calibrated loop count) of [max(1, repeats)] batches, a number of batches
    that is at least 1; with [repeats = 5], [seconds] stays within the range
    of any four of the five estimates, so a single inflated estimate leaves
    it among the others. *)
Theorem C4_benchmark_one_n_median
  (elapsed : nat -> Z -> R) (Input : Type) (func : Input -> Res unit)
  (make_input : Z -> Res Input) (n : Z) (cfg : BenchConfig.t) (k : nat)
  (r : BenchResult.t) (k' : nat) :
  benchmark_one_n elapsed Input func make_input n cfg k = Ok (r, k') ->
  exists loops kc,
    _choose_loops elapsed (Ok tt) cfg k = Ok (loops, kc)
    /\ loops <> 0%Z
    /\ BenchResult.loops r = loops
    /\ (let count := Z.to_nat (Z.max 1 (BenchConfig.repeats cfg)) in
        let est := map (fun i => elapsed (kc + i)%nat loops / IZR loops) (seq 0 count) in
        (1 <= count)%nat
        /\ ((1 <= BenchConfig.repeats cfg)%Z ->
            Z.of_nat count = BenchConfig.repeats cfg)
        /\ statistics_median est = Ok (BenchResult.seconds r)
        /\ is_median (BenchResult.seconds r) est
        /\ (BenchConfig.repeats cfg = 5%Z ->
            forall i, (i < 5)%nat ->
              exists lo hi, In lo (others i est) /\ In hi (others i est)
                            /\ lo <= BenchResult.seconds r <= hi)).
Proof.
  intros Hrun.
  pose proof (benchmark_one_n_cases elapsed Input func make_input n cfg k) as Hc.
  rewrite Hrun in Hc.
  destruct Hc as (x & loops & kc & _ & _ & Hl & Hnz & _ & Hmed & Hr & Hstat).
  exists loops, kc. split; [assumption|]. split; [assumption|].
  split; [rewrite Hr; reflexivity|].
  cbv zeta. fold (estimates elapsed kc loops (Z.to_nat (Z.max 1 (BenchConfig.repeats cfg)))).
  split; [lia|]. split; [lia|]. split; [assumption|]. split; [assumption|].
  intros H5 i Hi. apply median_of_five_robust; try assumption.
  rewrite length_estimates, H5. reflexivity.
Qed.

(** Five batches of a one-second callable, the third of them read 100
    times too long: the median is one second. *)
Lemma C4_benchmark_one_n_median_witness :
  exists r k',
    benchmark_one_n spiky_clock Z quiet_func id_factory 10 cfg_five_repeats 0%nat
    = Ok (r, k')
    /\ BenchResult.seconds r = 1.
Proof.
  assert (Hl : _choose_loops spiky_clock (Ok tt) cfg_five_repeats 0%nat = Ok (1%Z, 1%nat)).
  { destruct (choose_loops_run spiky_clock cfg_five_repeats 0%nat) as [Hfast _].
    apply Hfast. unfold spiky_clock; simpl. rewrite clamp_total_id; lra. }
  destruct (benchmark_one_n_eval spiky_clock Z quiet_func id_factory 10
              cfg_five_repeats 0%nat 10%Z 1%Z 1%nat eq_refl eq_refl Hl)
    as (m & _ & _ & Hrun); [lia|].
  eexists. eexists. split; [exact Hrun|].
  destruct (C4_benchmark_one_n_median _ _ _ _ _ _ _ _ _ Hrun)
    as (loops & kc & Hl' & _ & _ & Hrest).
  rewrite Hl in Hl'. injection Hl' as <- <-.
  cbv zeta in Hrest. destruct Hrest as (_ & _ & _ & _ & Hrobust).
  destruct (Hrobust eq_refl 2%nat) as (lo & hi & Hlo & Hhi & Hb); [lia|].
  change (Z.to_nat (Z.max 1 (BenchConfig.repeats cfg_five_repeats))) with 5%nat in *.
  cbv [others firstn skipn map seq app spiky_clock Nat.add Nat.eqb] in Hlo, Hhi.
  cbn [BenchResult.seconds] in *.
  simpl in Hlo, Hhi.
  assert (Hlo1 : lo = 1) by (intuition lra).
  assert (Hhi1 : hi = 1) by (intuition lra).
  lra.
Defined.

(** One hundredth of a second per call against the default threshold of
    0.02 s: one call is too short, two calls meet it. *)
Lemma C3_choose_loops_smallest_power_of_two_witness :
  exists k', _choose_loops (deterministic linear_time) (Ok tt) BenchConfig.default 0%nat
             = Ok (2%Z, k').
Proof.
  destruct (C3_choose_loops_smallest_power_of_two linear_time BenchConfig.default 0%nat)
    as (_ & Hpow & _ & _).
  apply (Hpow 1%nat).
  - lia.
  - intros j Hj. assert (j = 0%nat) as -> by lia.
    apply not_meets_lt. unfold linear_time; simpl. rewrite clamp_total_id; lra.
  - unfold meets, linear_time; simpl. rewrite clamp_total_id; lra.
Defined.

(** *** Claim C8 *)

(** C8 (amended): for every configuration whose [max_loops] is at least 1,
    the loop count chosen by the calibrator and recorded in the returned
    [BenchResult] is at least 1 and at most [max_loops]. *)
Theorem C8_loops_within_bounds
  (elapsed : nat -> Z -> R) (Input : Type) (func : Input -> Res unit)
  (make_input : Z -> Res Input) (n : Z) (cfg : BenchConfig.t) (k : nat) (x : Input) :
  (1 <= BenchConfig.max_loops cfg)%Z ->
  make_input n = Ok x -> func x = Ok tt ->
  exists loops kc r k',
    _choose_loops elapsed (func x) cfg k = Ok (loops, kc)
    /\ benchmark_one_n elapsed Input func make_input n cfg k = Ok (r, k')
    /\ BenchResult.loops r = loops
    /\ (1 <= loops <= BenchConfig.max_loops cfg)%Z.
Proof.
  intros Hcap Hx Hf. rewrite Hf.
  destruct (choose_loops_bounds elapsed cfg k) as (loops & kc & Hl & _ & _ & Hb).
  specialize (Hb Hcap).
  destruct (benchmark_one_n_eval elapsed Input func make_input n cfg k x loops kc
              Hx Hf Hl) as (m & _ & _ & Hrun); [lia|].
  do 4 eexists. split; [exact Hl|]. split; [exact Hrun|].
  split; [reflexivity|assumption].
Qed.

(** The default configuration on a one-second callable. *)
Lemma C8_loops_within_bounds_witness :
  exists loops kc r k',
    _choose_loops (deterministic unit_time) (quiet_func 10%Z) BenchConfig.default 0%nat
    = Ok (loops, kc)
    /\ benchmark_one_n (deterministic unit_time) Z quiet_func id_factory 10
         BenchConfig.default 0%nat = Ok (r, k')
    /\ BenchResult.loops r = loops
    /\ (1 <= loops <= 1000000)%Z.
Proof.
  apply (C8_loops_within_bounds (deterministic unit_time) Z quiet_func id_factory
           10%Z BenchConfig.default 0%nat 10%Z).
  - simpl. lia.
  - reflexivity.
  - reflexivity.
Defined.

(** C8 as stated fails when the loop cap is 0: a one-second callable with a
    threshold of two seconds gets 0 loops, and the per-call division of
    [benchmark_one_n] raises. *)
Lemma C8_counterexample :
  _choose_loops (deterministic unit_time) (Ok tt) (with_min_time cfg_zero_cap 2) 0%nat
  = Ok (0%Z, 1%nat)
  /\ ~ (1 <= 0)%Z
  /\ benchmark_one_n (deterministic unit_time) Z quiet_func id_factory 10
       (with_min_time cfg_zero_cap 2) 0%nat = Raise ZeroDivisionError.
Proof.
  assert (Hl : _choose_loops (deterministic unit_time) (Ok tt)
                 (with_min_time cfg_zero_cap 2) 0%nat = Ok (0%Z, 1%nat)).
  { apply choose_loops_zero_cap; [reflexivity|].
    unfold deterministic, unit_time. rewrite clamp_total_id; simpl; lra. }
  split; [exact Hl|]. split; [lia|].
  now apply (benchmark_one_n_zero _ Z quiet_func id_factory 10%Z _ 0%nat 10%Z 1%nat).
Qed.

(** *** The series runner *)

Section Series.
Variable elapsed : nat -> Z -> R.
Variable Input : Type.
Variable func : Input -> Res unit.
Variable make_input : Z -> Res Input.
Variable cfg : BenchConfig.t.

Lemma benchmark_one_n_ok (n : Z) (k : nat) :
  (1 <= BenchConfig.max_loops cfg)%Z ->
  (exists x, make_input n = Ok x /\ func x = Ok tt) ->
  exists r k', benchmark_one_n elapsed Input func make_input n cfg k = Ok (r, k')
               /\ BenchResult.n r = n.
Proof.
  intros Hcap (x & Hx & Hf).
  destruct (choose_loops_bounds elapsed cfg k) as (loops & kc & Hl & _ & _ & Hb).
  specialize (Hb Hcap).
  destruct (benchmark_one_n_eval elapsed Input func make_input n cfg k x loops kc
              Hx Hf Hl) as (m & _ & _ & Hrun); [lia|].
  do 2 eexists. split; [exact Hrun|reflexivity].
Qed.

(** The loop appends one result per size, in order. *)
Lemma series_loop_ok (n_values : list Z) :
  (1 <= BenchConfig.max_loops cfg)%Z ->
  (forall n, In n n_values -> exists x, make_input n = Ok x /\ func x = Ok tt) ->
  forall (results : list BenchResult.t) (k : nat),
  exists rs k',
    series_loop elapsed Input func make_input n_values cfg results k
    = Ok (results ++ rs, k')
    /\ map BenchResult.n rs = n_values.
Proof.
  intros Hcap. induction n_values as [|n rest IH]; intros Hall results k.
  - exists [], k. simpl. unfold ret. now rewrite app_nil_r.
  - destruct (benchmark_one_n_ok n k Hcap) as (r & k1 & Hr & Hn).
    { apply Hall. now left. }
    destruct (IH (fun n' Hin => Hall n' (or_intror Hin)) (results ++ [r]) k1)
      as (rs & k' & Hrs & Hmap).
    exists (r :: rs), k'. simpl series_loop. unfold bind. rewrite Hr, Hrs.
    rewrite <- app_assoc. simpl. split; [reflexivity|]. now rewrite Hn, Hmap.
Qed.

(** Whatever the loop raises was raised for one of the sizes by the
    factory or by the callable, or is the division by a loop count of 0. *)
Lemma series_loop_raises (n_values : list Z) (e : PyExc) :
  forall (results : list BenchResult.t) (k : nat),
    series_loop elapsed Input func make_input n_values cfg results k = Raise e ->
    (exists n, In n n_values /\ make_input n = Raise e)
    \/ (exists n x, In n n_values /\ make_input n = Ok x /\ func x = Raise e)
    \/ (e = ZeroDivisionError /\ BenchConfig.max_loops cfg = 0%Z).
Proof.
  induction n_values as [|n rest IH]; intros results k H.
  - discriminate.
  - simpl series_loop in H. unfold bind in H.
    pose proof (benchmark_one_n_cases elapsed Input func make_input n cfg k) as Hc.
    destruct (benchmark_one_n elapsed Input func make_input n cfg k)
      as [[r k1]| e' |]; [|injection H as ->|discriminate].
    + destruct (IH _ _ H) as [(n' & Hin & Hr)|[(n' & x & Hin & Hx & Hf)|Hz]].
      * left. exists n'. split; [now right|assumption].
      * right; left. exists n', x. split; [now right|]. now split.
      * right; right. assumption.
    + destruct Hc as [Hc|[(x & Hx & Hf)|Hz]].
      * left. exists n. split; [now left|assumption].
      * right; left. exists n, x. split; [now left|]. now split.
      * right; right. assumption.
Qed.
End Series.

(** *** Claim C5 *)



(** *** Claim C7 *)

(** C7 (amended): [benchmark_series] does not validate the sizes.  What it
    raises is what the factory or the callable raised for one of the sizes
    (or the division by a loop count of 0 when [max_loops] is 0); when they
    do not raise and [max_loops >= 1], a sequence that contains a
    non-positive size gets one [BenchResult] per size like any other. *)
Theorem C7_benchmark_series_no_size_validation
  (elapsed : nat -> Z -> R) (Input : Type) (func : Input -> Res unit)
  (make_input : Z -> Res Input) (n_values : list Z) (cfg : BenchConfig.t) (k : nat) :
  (forall e,
      benchmark_series elapsed Input func make_input n_values cfg k = Raise e ->
      (exists n, In n n_values /\ make_input n = Raise e)
      \/ (exists n x, In n n_values /\ make_input n = Ok x /\ func x = Raise e)
      \/ (e = ZeroDivisionError /\ BenchConfig.max_loops cfg = 0%Z))
  /\ ((exists n, In n n_values /\ (n <= 0)%Z) ->
      (1 <= BenchConfig.max_loops cfg)%Z ->
      (forall n, In n n_values -> exists x, make_input n = Ok x /\ func x = Ok tt) ->
      exists rs k',
        benchmark_series elapsed Input func make_input n_values cfg k = Ok (rs, k')
        /\ map BenchResult.n rs = n_values).
Proof.
  split.
  - intros e H. exact (series_loop_raises elapsed Input func make_input cfg
                         n_values e [] k H).
  - intros _ Hcap Hall.
    exact (series_loop_ok elapsed Input func make_input cfg n_values Hcap Hall [] k).
Qed.

(** The sizes [[0; -3; 5]] under the default configuration. *)
Lemma C7_benchmark_series_no_size_validation_witness :
  exists rs k',
    benchmark_series (deterministic unit_time) Z quiet_func id_factory
      [0%Z; (-3)%Z; 5%Z] BenchConfig.default 0%nat = Ok (rs, k')
    /\ map BenchResult.n rs = [0%Z; (-3)%Z; 5%Z].
Proof.
  apply (C7_benchmark_series_no_size_validation (deterministic unit_time) Z
           quiet_func id_factory [0%Z; (-3)%Z; 5%Z] BenchConfig.default 0%nat).
  - exists 0%Z. split; [now left|lia].
  - simpl. lia.
  - intros n _. exists n. split; reflexivity.
Defined.

(** C7 as stated fails: with the sizes [[0]], a factory and a callable that
    do not raise and the default configuration, [benchmark_series] returns
    one result for the size 0 and raises nothing. *)
Lemma C7_counterexample :
  exists r k',
    benchmark_series (deterministic unit_time) Z quiet_func id_factory [0%Z]
      BenchConfig.default 0%nat = Ok ([r], k')
    /\ BenchResult.n r = 0%Z
    /\ ~ is_validation_error
         (benchmark_series (deterministic unit_time) Z quiet_func id_factory [0%Z]
            BenchConfig.default 0%nat).
Proof.
  destruct (series_loop_ok (deterministic unit_time) Z quiet_func id_factory
              BenchConfig.default [0%Z]) with (results := @nil BenchResult.t) (k := 0%nat)
    as (rs & k' & Hrs & Hmap).
  - simpl. lia.
  - intros n _. exists n. split; reflexivity.
  - destruct rs as [|r [|? ?]]; try discriminate.
    injection Hmap as Hn.
    exists r, k'. split; [exact Hrs|]. split; [exact Hn|].
    intros [msg Hv]. unfold benchmark_series in Hv. rewrite Hrs in Hv. discriminate.
Qed.

(** ** Further properties of the code *)

(** *** Sums of linear combinations *)
















(** *** Extra X1 *)



(** *** Extra X2 *)







(** *** Extra X3 *)



(** *** Extra X4 *)



(** *** Extra X5 *)




(** *** Extra X6 *)



(** *** Ties in the ranking *)

Section StableFilter.
Context {A K : Type}.
Variable lt : K -> K -> bool.
Variable key : A -> K.
Variable P : A -> bool.

(** Two elements that both satisfy [P] are not ordered by their keys. *)
Hypothesis P_unordered :
  forall x y, P x = true -> P y = true -> lt (key y) (key x) = false.



End StableFilter.






(** *** Extra X7 *)



(** *** Extra X8 *)




(** *** Extra X9 *)


(** *** The catalog *)

Lemma ln_2_pos : 0 < ln 2.
Proof. pose proof ln_lt_2. lra. Qed.

Lemma ln_le_mono (x y : R) : 0 < x -> x <= y -> ln x <= ln y.
Proof.
  intros Hx [Hlt| ->]; [|lra]. left. now apply ln_increasing.
Qed.

Lemma safe_log2_ge_1 (n : R) : 1 <= _safe_log2 n.
Proof.
  unfold _safe_log2. pose proof ln_2_pos as H2.
  assert (Hle : ln 2 <= ln (Rmax 2 n)).
  { apply ln_le_mono; [lra|apply Rmax_l]. }
  apply Rmult_le_reg_r with (ln 2); [assumption|].
  unfold Rdiv. rewrite Rmult_assoc, Rinv_l by lra. lra.
Qed.

Lemma safe_log2_mono (n1 n2 : R) : n1 <= n2 -> _safe_log2 n1 <= _safe_log2 n2.
Proof.
  intros H. unfold _safe_log2. pose proof ln_2_pos as H2.
  apply Rmult_le_compat_r; [left; now apply Rinv_0_lt_compat|].
  apply ln_le_mono.
  - pose proof (Rmax_l 2 n1). lra.
  - apply Rmax_case; [apply Rmax_l|].
    pose proof (Rmax_r 2 n2). lra.
Qed.

(** *** Extra X10 *)

(** X10: every basis function of the catalog [DEFAULT_MODELS] is at least 1
    at sizes from 1 on and never decreases as the size grows. *)
Theorem X10_catalog_positive_and_monotone (m : Model.t) (n1 n2 : R) :
  In m DEFAULT_MODELS -> 1 <= n1 -> n1 <= n2 ->
  1 <= Model.f m n1 <= Model.f m n2.
Proof.
  intros Hm H1 H12.
  pose proof (safe_log2_ge_1 n1) as Hl1.
  pose proof (safe_log2_mono n1 n2 H12) as Hl12.
  unfold DEFAULT_MODELS in Hm. simpl in Hm.
  destruct Hm as [<-|[<-|[<-|[<-|[<-|[<-|[]]]]]]]; cbn [Model.f].
  - unfold f_const. lra.
  - unfold f_log_n. lra.
  - unfold f_n. lra.
  - unfold f_n_log_n. cbv zeta. split.
    + replace 1 with (1 * 1) by ring. apply Rmult_le_compat; lra.
    + apply Rmult_le_compat; lra.
  - unfold f_n2. cbv zeta. split.
    + replace 1 with (1 * 1) by ring. apply Rmult_le_compat; lra.
    + apply Rmult_le_compat; lra.
  - unfold f_n3. cbv zeta.
    assert (Hsq1 : 1 <= n1 * n1).
    { replace 1 with (1 * 1) by ring. apply Rmult_le_compat; lra. }
    assert (Hsq : n1 * n1 <= n2 * n2) by (apply Rmult_le_compat; lra).
    split.
    + replace 1 with (1 * 1) by ring. apply Rmult_le_compat; lra.
    + apply Rmult_le_compat; lra.
Qed.

(** The model "n log n" between the sizes 4 and 8. *)
Lemma X10_catalog_positive_and_monotone_witness :
  1 <= f_n_log_n 4 <= f_n_log_n 8.
Proof.
  apply (X10_catalog_positive_and_monotone (Model.mk "n log n" f_n_log_n) 4 8).
  - unfold DEFAULT_MODELS. simpl. tauto.
  - lra.
  - lra.
Defined.

(** *** Extra X11 *)

(** X11: [_safe_log2] is the base-2 logarithm from 2 on, so that it takes
    the value [k] at [2^k] for [k >= 1], and it is clamped to 1 below: every
    size up to 2 (0 and 1 among them) has the value 1. *)
Theorem X11_safe_log2_clamped_logarithm :
  (forall n, n <= 2 -> _safe_log2 n = 1)
  /\ (forall k : nat, (1 <= k)%nat -> _safe_log2 (2 ^ k) = INR k).
Proof.
  pose proof ln_2_pos as H2. split.
  - intros n Hn. unfold _safe_log2. rewrite Rmax_left by assumption.
    field. lra.
  - intros k Hk. unfold _safe_log2.
    assert (Hpow : 2 <= 2 ^ k).
    { replace 2 with (2 ^ 1) at 1 by (simpl; lra). apply Rle_pow; [lra|assumption]. }
    rewrite Rmax_right by assumption.
    rewrite ln_pow by lra. field. lra.
Qed.

(** *** The calibrator on any clock *)

Lemma choose_loops_unfold (elapsed : nat -> Z -> R) (cfg : BenchConfig.t) (k : nat) :
  _choose_loops elapsed (Ok tt) cfg k
  = (if Rleb (BenchConfig.min_time_per_repeat cfg) (clamp_total (elapsed k 1%Z))
     then ret 1%Z
     else bind (choose_loops_while elapsed (loop_bound cfg) (Ok tt) cfg 1%Z
                  (clamp_total (elapsed k 1%Z)))
            (fun p => ret (Z.min (fst p) (BenchConfig.max_loops cfg)))) (S k).
Proof.
  unfold _choose_loops. cbv zeta. unfold bind at 1.
  rewrite time_call_ok. cbv beta. unfold Rgeb.
  destruct (Rleb _ _); [reflexivity|].
  unfold bind. now destruct (choose_loops_while _ _ _ _ _ _ _) as [[[? ?] ?]| |].
Qed.

(** *** Extra X12 *)

(** X12: on a callable that does not raise, the calibrator returns whatever
    the clock reads and whatever the configuration: after 1 + [s] timed
    batches, with [s] at most [ceil(log2 max_loops)] (0 for a cap up to 1);
    its result is 1 on the fast path and [min(2^s, max_loops)] otherwise;
    and the largest batch it times, [2^s] loops, stays below twice the
    cap. *)
Theorem X12_choose_loops_bounded_search
  (elapsed : nat -> Z -> R) (cfg : BenchConfig.t) (k : nat) :
  exists loops s,
    _choose_loops elapsed (Ok tt) cfg k = Ok (loops, (k + 1 + s)%nat)
    /\ (Z.of_nat s <= Z.log2_up (BenchConfig.max_loops cfg))%Z
    /\ (loops = 1%Z \/ loops = Z.min (2 ^ Z.of_nat s) (BenchConfig.max_loops cfg))
    /\ ((1 <= s)%nat -> (2 ^ Z.of_nat s < 2 * BenchConfig.max_loops cfg)%Z).
Proof.
  rewrite choose_loops_unfold.
  destruct (Rleb _ _) eqn:Hfast.
  - exists 1%Z, 0%nat. unfold ret. split; [do 2 f_equal; lia|].
    split; [apply Z.log2_up_nonneg|]. split; [now left|lia].
  - destruct (choose_loops_while_run elapsed cfg (loop_bound cfg) 1%Z
                (clamp_total (elapsed k 1%Z)) (S k))
      as (s & Hs & Hrun & Hbefore & _).
    { lia. }
    { apply loop_bound_enough. }
    exists (Z.min (2 ^ Z.of_nat s) (BenchConfig.max_loops cfg)), s.
    unfold bind. rewrite Hrun. cbn [fst]. rewrite Z.mul_1_l. unfold ret.
    split; [do 2 f_equal; lia|].
    split.
    { unfold loop_bound in Hs.
      pose proof (Z.log2_up_nonneg (BenchConfig.max_loops cfg)). lia. }
    split; [now right|].
    intros H1. destruct s as [|s']; [lia|].
    destruct (Hbefore s') as [_ Hlt]; [lia|].
    rewrite Z.mul_1_l in Hlt.
    rewrite Nat2Z.inj_succ, Z.pow_succ_r by lia. lia.
Qed.

(** *** Extra X13 *)

Section SeriesFailure.
Variable elapsed : nat -> Z -> R.
Variable Input : Type.
Variable func : Input -> Res unit.
Variable make_input : Z -> Res Input.
Variable cfg : BenchConfig.t.

(** The loop runs through a prefix of sizes that give no error. *)
Lemma series_loop_prefix (pre rest : list Z) :
  (1 <= BenchConfig.max_loops cfg)%Z ->
  (forall n, In n pre -> exists x, make_input n = Ok x /\ func x = Ok tt) ->
  forall (results : list BenchResult.t) (k : nat),
  exists rs k',
    series_loop elapsed Input func make_input (pre ++ rest) cfg results k
    = series_loop elapsed Input func make_input rest cfg (results ++ rs) k'
    /\ map BenchResult.n rs = pre.
Proof.
  intros Hcap. induction pre as [|n pre IH]; intros Hall results k.
  - exists [], k. now rewrite app_nil_r.
  - destruct (benchmark_one_n_ok elapsed Input func make_input cfg n k Hcap)
      as (r & k1 & Hr & Hn).
    { apply Hall. now left. }
    destruct (IH (fun n' Hin => Hall n' (or_intror Hin)) (results ++ [r]) k1)
      as (rs & k' & Hrs & Hmap).
    exists (r :: rs), k'. cbn [app series_loop]. unfold bind at 1. rewrite Hr, Hrs.
    rewrite <- app_assoc. split; [reflexivity|]. simpl. now rewrite Hn, Hmap.
Qed.
End SeriesFailure.

(** X13: [benchmark_series] stops at the first size for which the input
    factory or the callable raises and raises that very exception: the
    results of the sizes before it are not returned and the sizes after it
    are not run. *)
Theorem X13_benchmark_series_raises_first_failure
  (elapsed : nat -> Z -> R) (Input : Type) (func : Input -> Res unit)
  (make_input : Z -> Res Input) (cfg : BenchConfig.t) (k : nat)
  (pre post : list Z) (n : Z) (e : PyExc) :
  (1 <= BenchConfig.max_loops cfg)%Z ->
  (forall n', In n' pre -> exists x, make_input n' = Ok x /\ func x = Ok tt) ->
  (make_input n = Raise e \/ exists x, make_input n = Ok x /\ func x = Raise e) ->
  benchmark_series elapsed Input func make_input (pre ++ n :: post) cfg k = Raise e.
Proof.
  intros Hcap Hpre Hfail. unfold benchmark_series.
  destruct (series_loop_prefix elapsed Input func make_input cfg pre (n :: post)
              Hcap Hpre [] k) as (rs & k' & Hrun & _).
  rewrite Hrun. cbn [series_loop]. unfold bind.
  destruct Hfail as [Hx|(x & Hx & Hf)].
  - now rewrite (benchmark_one_n_factory_raises elapsed Input func make_input n cfg k' e Hx).
  - now rewrite (benchmark_one_n_propagates elapsed Input func make_input n cfg k' x e Hx Hf).
Qed.

(** The sizes 10, 0, 20 with a callable that fails on the size 0. *)
Lemma X13_benchmark_series_raises_first_failure_witness :
  benchmark_series (deterministic unit_time) Z picky_func id_factory
    [10%Z; 0%Z; 20%Z] BenchConfig.default 0%nat = Raise IndexError.
Proof.
  apply (X13_benchmark_series_raises_first_failure (deterministic unit_time) Z
           picky_func id_factory BenchConfig.default 0%nat [10%Z] [20%Z] 0%Z IndexError).
  - simpl. lia.
  - intros n' [<-|[]]. exists 10%Z. split; reflexivity.
  - right. exists 0%Z. split; reflexivity.
Defined.

(** *** More on the median *)

Lemma is_median_constant (l : list R) (c m : R) :
  l <> [] -> (forall x, In x l -> x = c) -> is_median m l -> m = c.
Proof.
  intros Hne Hall (s & Hperm & _ & Hm).
  pose proof (Permutation_length Hperm) as Hlen.
  assert (Hpos : (0 < length l)%nat) by (destruct l; [contradiction|simpl; lia]).
  assert (Hnth : forall i, (i < length l)%nat -> nth i s 0 = c).
  { intros i Hi. apply Hall. apply (Permutation_in _ Hperm).
    apply nth_In. lia. }
  destruct (Nat.odd (length l)) eqn:Hodd.
  - rewrite Hm. apply Hnth. apply Nat.div_lt; lia.
  - assert (H2 : (2 <= length l)%nat).
    { destruct (length l) as [|[|n]]; try lia. discriminate. }
    assert (Hhalf : (length l / 2 < length l)%nat) by (apply Nat.div_lt; lia).
    rewrite Hm, !Hnth by lia. lra.
Qed.

Lemma is_median_in_range (l : list R) (m : R) :
  l <> [] -> is_median m l ->
  exists lo hi, In lo l /\ In hi l /\ lo <= m <= hi.
Proof.
  intros Hne (s & Hperm & Hsorted & Hm).
  pose proof (Permutation_length Hperm) as Hlen.
  assert (Hpos : (0 < length l)%nat) by (destruct l; [contradiction|simpl; lia]).
  assert (Hin : forall i, (i < length l)%nat -> In (nth i s 0) l).
  { intros i Hi. apply (Permutation_in _ Hperm). apply nth_In. lia. }
  assert (Hhalf : (length l / 2 < length l)%nat) by (apply Nat.div_lt; lia).
  destruct (Nat.odd (length l)) eqn:Hodd.
  - exists m, m. rewrite Hm. repeat split; try (now apply Hin); lra.
  - assert (H2 : (2 <= length l)%nat).
    { destruct (length l) as [|[|n]]; try lia. discriminate. }
    assert (H1 : (1 <= length l / 2)%nat).
    { apply Nat.div_le_lower_bound; lia. }
    exists (nth (length l / 2 - 1) s 0), (nth (length l / 2) s 0).
    split; [apply Hin; lia|]. split; [apply Hin; lia|].
    assert (Hle : nth (length l / 2 - 1) s 0 <= nth (length l / 2) s 0).
    { apply (StronglySorted_nth_error Rle s Hsorted (length l / 2 - 1) (length l / 2)).
      - lia.
      - apply nth_error_nth'. lia.
      - apply nth_error_nth'. lia. }
    rewrite Hm. lra.
Qed.

Lemma estimates_nonempty (elapsed : nat -> Z -> R) (k : nat) (loops : Z)
  (cfg : BenchConfig.t) :
  estimates elapsed k loops (Z.to_nat (Z.max 1 (BenchConfig.repeats cfg))) <> [].
Proof.
  intros H. apply (f_equal (@length R)) in H.
  rewrite length_estimates in H. simpl in H. lia.
Qed.

(** *** Extra X14 *)

(** X14: when every batch of [loops] calls is timed at the same [t loops],
    the [seconds] that [benchmark_one_n] returns is exactly
    [t loops / loops] for the loop count it reports, whatever the number of
    repeats. *)
Theorem X14_benchmark_one_n_deterministic_seconds
  (t : Z -> R) (Input : Type) (func : Input -> Res unit)
  (make_input : Z -> Res Input) (n : Z) (cfg : BenchConfig.t) (k : nat)
  (r : BenchResult.t) (k' : nat) :
  benchmark_one_n (deterministic t) Input func make_input n cfg k = Ok (r, k') ->
  BenchResult.seconds r = t (BenchResult.loops r) / IZR (BenchResult.loops r).
Proof.
  intros Hrun.
  pose proof (benchmark_one_n_cases (deterministic t) Input func make_input n cfg k) as Hc.
  rewrite Hrun in Hc.
  destruct Hc as (x & loops & kc & _ & _ & _ & _ & _ & Hmed & Hr & _).
  assert (Hloops : BenchResult.loops r = loops) by (rewrite Hr; reflexivity).
  rewrite Hloops.
  apply (is_median_constant _ (t loops / IZR loops) _
           (estimates_nonempty (deterministic t) kc loops cfg)); [|exact Hmed].
  intros y Hy. unfold estimates in Hy. apply in_map_iff in Hy.
  destruct Hy as (i & <- & _). reflexivity.
Qed.

(** A one-second callable under the default configuration: one loop, one
    second per call. *)
Lemma X14_benchmark_one_n_deterministic_seconds_witness :
  exists r k',
    benchmark_one_n (deterministic unit_time) Z quiet_func id_factory 10
      BenchConfig.default 0%nat = Ok (r, k')
    /\ BenchResult.seconds r = unit_time (BenchResult.loops r) / IZR (BenchResult.loops r).
Proof.
  destruct (benchmark_one_n_ok (deterministic unit_time) Z quiet_func id_factory
              BenchConfig.default 10%Z 0%nat) as (r & k' & Hrun & _).
  - simpl. lia.
  - exists 10%Z. split; reflexivity.
  - exists r, k'. split; [exact Hrun|].
    exact (X14_benchmark_one_n_deterministic_seconds _ _ _ _ _ _ _ _ _ Hrun).
Defined.

(** *** Extra X15 *)

(** X15: the [seconds] that [benchmark_one_n] returns lies between two of
    the per-call estimates of its batches: it is never below the smallest
    nor above the largest of them. *)
Theorem X15_benchmark_one_n_seconds_within_estimates
  (elapsed : nat -> Z -> R) (Input : Type) (func : Input -> Res unit)
  (make_input : Z -> Res Input) (n : Z) (cfg : BenchConfig.t) (k : nat)
  (r : BenchResult.t) (k' : nat) :
  benchmark_one_n elapsed Input func make_input n cfg k = Ok (r, k') ->
  exists kc lo hi,
    _choose_loops elapsed (Ok tt) cfg k = Ok (BenchResult.loops r, kc)
    /\ (let est := estimates elapsed kc (BenchResult.loops r)
                     (Z.to_nat (Z.max 1 (BenchConfig.repeats cfg))) in
        In lo est /\ In hi est /\ lo <= BenchResult.seconds r <= hi).
Proof.
  intros Hrun.
  pose proof (benchmark_one_n_cases elapsed Input func make_input n cfg k) as Hc.
  rewrite Hrun in Hc.
  destruct Hc as (x & loops & kc & _ & _ & Hl & _ & _ & Hmed & Hr & _).
  assert (Hloops : BenchResult.loops r = loops) by (rewrite Hr; reflexivity).
  rewrite Hloops.
  destruct (is_median_in_range _ _ (estimates_nonempty elapsed kc loops cfg) Hmed)
    as (lo & hi & Hlo & Hhi & Hb).
  exists kc, lo, hi. split; [exact Hl|]. cbv zeta. repeat split; try assumption; lra.
Qed.

(** Five batches, one of them read 100 times too long: the result is
    neither below 1 nor above 100 seconds. *)
Lemma X15_benchmark_one_n_seconds_within_estimates_witness :
  exists r k',
    benchmark_one_n spiky_clock Z quiet_func id_factory 10 cfg_five_repeats 0%nat
    = Ok (r, k')
    /\ 1 <= BenchResult.seconds r <= 100.
Proof.
  destruct (benchmark_one_n_ok spiky_clock Z quiet_func id_factory
              cfg_five_repeats 10%Z 0%nat) as (r & k' & Hrun & _).
  - simpl. lia.
  - exists 10%Z. split; reflexivity.
  - exists r, k'. split; [exact Hrun|].
    destruct (X15_benchmark_one_n_seconds_within_estimates _ _ _ _ _ _ _ _ _ Hrun)
      as (kc & lo & hi & _ & Hlo & Hhi & Hb).
    assert (Hrange : forall y, In y (estimates spiky_clock kc (BenchResult.loops r)
                                       (Z.to_nat (Z.max 1 (BenchConfig.repeats cfg_five_repeats)))) ->
                     y = 1 / IZR (BenchResult.loops r)
                     \/ y = 100 / IZR (BenchResult.loops r)).
    { intros y Hy. unfold estimates in Hy. apply in_map_iff in Hy.
      destruct Hy as (i & <- & _). unfold spiky_clock.
      destruct (_ =? _)%nat; [now right|now left]. }
    assert (Hone : BenchResult.loops r = 1%Z).
    { pose proof (benchmark_one_n_cases spiky_clock Z quiet_func id_factory 10%Z
                    cfg_five_repeats 0%nat) as Hc.
      rewrite Hrun in Hc.
      destruct Hc as (x & loops & kc' & _ & _ & Hl & _ & _ & _ & Hr & _).
      destruct (choose_loops_run spiky_clock cfg_five_repeats 0) as [Hfast _].
      rewrite Hfast in Hl.
      - injection Hl as <- _. rewrite Hr. reflexivity.
      - unfold spiky_clock; simpl. rewrite clamp_total_id; lra. }
    rewrite Hone in Hrange, Hlo, Hhi.
    destruct (Hrange lo Hlo) as [-> | ->], (Hrange hi Hhi) as [-> | ->]; lra.
Defined.

(** *** Extra X16 *)



(** *** Extra X17 *)



(** *** Extra X18 *)

Lemma choose_loops_nonpositive_cap (elapsed : nat -> Z -> R) (cfg : BenchConfig.t)
  (k : nat) :
  (BenchConfig.max_loops cfg <= 0)%Z ->
  clamp_total (elapsed k 1%Z) < BenchConfig.min_time_per_repeat cfg ->
  _choose_loops elapsed (Ok tt) cfg k = Ok (BenchConfig.max_loops cfg, S k).
Proof.
  intros Hcap Hlt.
  destruct (choose_loops_run elapsed cfg k) as [_ Hslow].
  destruct (Hslow Hlt) as (s & Hrun & Hbefore & _).
  rewrite Hrun.
  destruct s as [|s].
  - f_equal. f_equal; [simpl; lia|lia].
  - destruct (Hbefore 0%nat) as [_ H0]; [lia|]. simpl in H0. lia.
Qed.

(** X18: with a [max_loops] of 0 or less and a first measurement under the
    threshold, the calibrator returns [max_loops] itself after that single
    measurement; [benchmark_one_n] then raises [ZeroDivisionError] for a cap
    of 0 and, for a negative cap, returns a result that records the negative
    loop count. *)
Theorem X18_nonpositive_cap_is_returned
  (elapsed : nat -> Z -> R) (Input : Type) (func : Input -> Res unit)
  (make_input : Z -> Res Input) (n : Z) (cfg : BenchConfig.t) (k : nat) (x : Input) :
  (BenchConfig.max_loops cfg <= 0)%Z ->
  clamp_total (elapsed k 1%Z) < BenchConfig.min_time_per_repeat cfg ->
  make_input n = Ok x -> func x = Ok tt ->
  _choose_loops elapsed (func x) cfg k = Ok (BenchConfig.max_loops cfg, S k)
  /\ (BenchConfig.max_loops cfg = 0%Z ->
      benchmark_one_n elapsed Input func make_input n cfg k = Raise ZeroDivisionError)
  /\ ((BenchConfig.max_loops cfg < 0)%Z ->
      exists r k',
        benchmark_one_n elapsed Input func make_input n cfg k = Ok (r, k')
        /\ BenchResult.loops r = BenchConfig.max_loops cfg).
Proof.
  intros Hcap Hlt Hx Hf.
  pose proof (choose_loops_nonpositive_cap elapsed cfg k Hcap Hlt) as Hl.
  rewrite Hf. split; [exact Hl|]. split.
  - intros H0. rewrite H0 in Hl.
    exact (benchmark_one_n_zero elapsed Input func make_input n cfg k x (S k) Hx Hf Hl).
  - intros Hneg.
    destruct (benchmark_one_n_eval elapsed Input func make_input n cfg k x
                (BenchConfig.max_loops cfg) (S k) Hx Hf Hl)
      as (m & _ & _ & Hrun); [lia|].
    do 2 eexists. split; [exact Hrun|reflexivity].
Qed.

(** A cap of -4 and a callable far quicker than the threshold. *)
Lemma X18_nonpositive_cap_is_returned_witness :
  exists r k',
    benchmark_one_n (deterministic linear_time) Z quiet_func id_factory 10
      cfg_negative_cap 0%nat = Ok (r, k')
    /\ BenchResult.loops r = (-4)%Z.
Proof.
  destruct (X18_nonpositive_cap_is_returned (deterministic linear_time) Z quiet_func
              id_factory 10%Z cfg_negative_cap 0%nat 10%Z) as (_ & _ & Hneg).
  - simpl. lia.
  - unfold deterministic, linear_time. rewrite clamp_total_id; simpl; lra.
  - reflexivity.
  - reflexivity.
  - apply Hneg. simpl. lia.
Defined.

(** *** Choosing the sizes *)

Import Cli Cases.

Lemma fold_left_min_above (b : Z) (rest : list Z) :
  forall x, (b < x)%Z -> (forall y, In y rest -> (b < y)%Z) ->
            (b < fold_left Z.min rest x)%Z.
Proof.
  induction rest as [|y rest IH]; intros x Hx Hall; [exact Hx|].
  simpl. apply IH.
  - specialize (Hall y (or_introl eq_refl)). lia.
  - intros z Hz. apply Hall. now right.
Qed.

Lemma filter_nil_all_above (ns : list Z) :
  filter (fun n => (n <=? 120)%Z) ns = [] -> forall n, In n ns -> (120 < n)%Z.
Proof.
  induction ns as [|x ns IH]; intros H n Hin; [contradiction|].
  simpl in H. destruct (x <=? 120)%Z eqn:E; [discriminate|].
  apply Z.leb_gt in E. destruct Hin as [<-|Hin]; [assumption|now apply IH].
Qed.

Lemma filter_all_below (ns : list Z) :
  Forall (fun n => (n <= 120)%Z) ns -> filter (fun n => (n <=? 120)%Z) ns = ns.
Proof.
  induction 1 as [|x ns Hx Hall IH]; [reflexivity|].
  simpl. apply Z.leb_le in Hx. now rewrite Hx, IH.
Qed.

Lemma filter_below_Forall (ns : list Z) :
  Forall (fun n => (n <= 120)%Z) (filter (fun n => (n <=? 120)%Z) ns).
Proof.
  apply Forall_forall. intros n Hin. apply filter_In in Hin.
  destruct Hin as [_ H]. now apply Z.leb_le.
Qed.

Lemma list_neqb_false (l1 l2 : list Z) : list_neqb l1 l2 = false <-> l1 = l2.
Proof. unfold list_neqb. destruct (list_eq_dec Z.eq_dec l1 l2); split; easy. Qed.

Lemma list_neqb_true (l1 l2 : list Z) : list_neqb l1 l2 = true <-> l1 <> l2.
Proof. unfold list_neqb. destruct (list_eq_dec Z.eq_dec l1 l2); split; easy. Qed.

(** The clamp of [cubic_triples] when some size is at most 120. *)
Lemma clamp_cubic_some_small (ns : list Z) :
  filter (fun n => (n <=? 120)%Z) ns <> [] ->
  _clamp_ns_for_case "cubic_triples" ns
  = Ok (filter (fun n => (n <=? 120)%Z) ns,
        if list_neqb ns (filter (fun n => (n <=? 120)%Z) ns)
        then Some clamp_warning else None).
Proof.
  intros Hne. unfold _clamp_ns_for_case.
  change (String.eqb "cubic_triples" "cubic_triples") with true. cbv zeta iota.
  destruct (filter (fun n => (n <=? 120)%Z) ns) as [|x rest] eqn:E; [contradiction|].
  unfold res_bind. now destruct (list_neqb ns (x :: rest)).
Qed.

(** The clamp of [cubic_triples] when every size is above 120. *)
Lemma clamp_cubic_all_large (ns : list Z) :
  ns <> [] -> (forall n, In n ns -> (120 < n)%Z) ->
  _clamp_ns_for_case "cubic_triples" ns = Ok ([120%Z], Some clamp_warning).
Proof.
  intros Hne Hall. unfold _clamp_ns_for_case.
  change (String.eqb "cubic_triples" "cubic_triples") with true. cbv zeta iota.
  assert (Hf : filter (fun n => (n <=? 120)%Z) ns = []).
  { destruct (filter (fun n => (n <=? 120)%Z) ns) as [|x rest] eqn:E; [reflexivity|].
    assert (Hin : In x (filter (fun n => (n <=? 120)%Z) ns)) by (rewrite E; now left).
    apply filter_In in Hin. destruct Hin as [Hin Hle].
    apply Z.leb_le in Hle. specialize (Hall x Hin). lia. }
  rewrite Hf. destruct ns as [|x rest]; [contradiction|].
  unfold py_min, res_bind.
  assert (Hmin : (120 < fold_left Z.min rest x)%Z).
  { apply fold_left_min_above; [apply Hall; now left|].
    intros y Hy. apply Hall. now right. }
  rewrite Z.min_l by lia.
  assert (Hneq : list_neqb (x :: rest) [120%Z] = true).
  { apply list_neqb_true. intros Heq. injection Heq as Hx _.
    specialize (Hall x (or_introl eq_refl)). lia. }
  now rewrite Hneq.
Qed.

(** *** Extra X19 *)

(** X19: for the case [cubic_triples] and a non-empty list of sizes,
    [_clamp_ns_for_case] returns a non-empty list of sizes of at most 120:
    the sizes up to 120 in their order if there are any, and the single size
    120 otherwise.  The warning is there exactly when the list has changed,
    positive sizes stay positive, and clamping the result again changes
    nothing. *)
Theorem X19_clamp_cubic_triples (ns : list Z) :
  ns <> [] ->
  exists ns2 warn,
    _clamp_ns_for_case "cubic_triples" ns = Ok (ns2, warn)
    /\ ns2 <> []
    /\ Forall (fun n => (n <= 120)%Z) ns2
    /\ ((exists n, In n ns /\ (n <= 120)%Z) ->
        ns2 = filter (fun n => (n <=? 120)%Z) ns)
    /\ ((forall n, In n ns -> (120 < n)%Z) -> ns2 = [120%Z])
    /\ (warn = None <-> ns2 = ns)
    /\ (warn = Some clamp_warning <-> ns2 <> ns)
    /\ (Forall (fun n => (0 < n)%Z) ns -> Forall (fun n => (0 < n)%Z) ns2)
    /\ _clamp_ns_for_case "cubic_triples" ns2 = Ok (ns2, None).
Proof.
  intros Hne.
  destruct (filter (fun n => (n <=? 120)%Z) ns) as [|x rest] eqn:E.
  - pose proof (filter_nil_all_above ns E) as Hall.
    exists [120%Z], (Some clamp_warning).
    split; [now apply clamp_cubic_all_large|].
    split; [discriminate|]. split; [repeat constructor; lia|].
    assert (Hneq : [120%Z] <> ns).
    { intros <-. specialize (Hall 120%Z (or_introl eq_refl)). lia. }
    split.
    { intros (n & Hin & Hle). specialize (Hall n Hin). lia. }
    split; [reflexivity|]. split; [split; [discriminate|contradiction]|].
    split; [split; [intros _; exact Hneq|reflexivity]|].
    split; [intros _; repeat constructor; lia|].
    rewrite (clamp_cubic_some_small [120%Z]) by discriminate.
    reflexivity.
  - assert (Hfne : filter (fun n => (n <=? 120)%Z) ns <> []) by (rewrite E; discriminate).
    pose proof (clamp_cubic_some_small ns Hfne) as Hrun. rewrite E in Hrun, Hfne.
    pose proof (filter_below_Forall ns) as Hsmall. rewrite E in Hsmall.
    exists (x :: rest). eexists. split; [exact Hrun|].
    split; [discriminate|]. split; [exact Hsmall|].
    split; [reflexivity|].
    split.
    { intros Hall. assert (Hin : In x (filter (fun n => (n <=? 120)%Z) ns))
        by (rewrite E; now left).
      apply filter_In in Hin. destruct Hin as [Hin Hle]. apply Z.leb_le in Hle.
      specialize (Hall x Hin). lia. }
    split; [|split; [|split]].
    + destruct (list_neqb ns (x :: rest)) eqn:Hn.
      * apply list_neqb_true in Hn. split; [discriminate|]. intros H. now symmetry in H.
      * apply list_neqb_false in Hn. split; [now intros _|reflexivity].
    + destruct (list_neqb ns (x :: rest)) eqn:Hn.
      * apply list_neqb_true in Hn. split; [|reflexivity]. intros _ H. now symmetry in H.
      * apply list_neqb_false in Hn. split; [discriminate|]. intros H. now symmetry in Hn.
    + intros Hpos. rewrite <- E. apply Forall_forall. intros n Hin.
      apply filter_In in Hin. destruct Hin as [Hin _].
      rewrite Forall_forall in Hpos. now apply Hpos.
    + rewrite (clamp_cubic_some_small (x :: rest));
        rewrite (filter_all_below (x :: rest) Hsmall); try discriminate.
      rewrite (proj2 (list_neqb_false _ _) eq_refl). reflexivity.
Qed.

(** The default sizes of the case, 25 to 800. *)
Lemma X19_clamp_cubic_triples_witness :
  exists warn,
    _clamp_ns_for_case "cubic_triples" [25; 50; 100; 200; 400; 800]%Z
    = Ok ([25; 50; 100]%Z, warn)
    /\ warn = Some clamp_warning.
Proof.
  destruct (X19_clamp_cubic_triples [25; 50; 100; 200; 400; 800]%Z)
    as (ns2 & warn & Hrun & _ & _ & Hsmall & _ & _ & Hwarn & _).
  - discriminate.
  - assert (Hns2 : ns2 = [25; 50; 100]%Z).
    { apply Hsmall. exists 25%Z. split; [now left|lia]. }
    subst ns2. exists warn. split; [exact Hrun|].
    apply Hwarn. discriminate.
Defined.

(** *** Extra X20 *)

(** X20: [_clamp_ns_for_case] raises only for the case [cubic_triples] with
    an empty list of sizes, where it is the [ValueError] of the builtin
    [min]; it returns the sizes as they are, without a warning, for every
    other case and, whatever the case, for sizes that are all at most
    120. *)
Theorem X20_clamp_errors_and_untouched_sizes (case_name : string) (ns : list Z) :
  (is_validation_error (_clamp_ns_for_case case_name ns)
   <-> case_name = "cubic_triples"%string /\ ns = [])
  /\ (case_name <> "cubic_triples"%string ->
      _clamp_ns_for_case case_name ns = Ok (ns, None))
  /\ (ns <> [] -> Forall (fun n => (n <= 120)%Z) ns ->
      _clamp_ns_for_case case_name ns = Ok (ns, None)).
Proof.
  assert (Hother : case_name <> "cubic_triples"%string ->
                   _clamp_ns_for_case case_name ns = Ok (ns, None)).
  { intros Hne. unfold _clamp_ns_for_case.
    apply String.eqb_neq in Hne. now rewrite Hne. }
  assert (Hsmall : ns <> [] -> Forall (fun n => (n <= 120)%Z) ns ->
                   _clamp_ns_for_case "cubic_triples" ns = Ok (ns, None)).
  { intros Hne Hall. rewrite clamp_cubic_some_small;
      rewrite (filter_all_below ns Hall); [|exact Hne].
    now rewrite (proj2 (list_neqb_false _ _) eq_refl). }
  split; [|split].
  - split.
    + intros [msg Hv].
      destruct (String.eqb_spec case_name "cubic_triples") as [->|Hne].
      * split; [reflexivity|].
        destruct ns as [|x rest]; [reflexivity|]. exfalso.
        destruct (filter (fun n => (n <=? 120)%Z) (x :: rest)) as [|y more] eqn:E.
        -- rewrite clamp_cubic_all_large in Hv; [discriminate|discriminate|].
           now apply filter_nil_all_above.
        -- rewrite clamp_cubic_some_small in Hv by (rewrite E; discriminate).
           discriminate.
      * rewrite (Hother Hne) in Hv. discriminate.
    + intros [-> ->]. eexists. reflexivity.
  - exact Hother.
  - intros Hne Hall.
    destruct (String.eqb_spec case_name "cubic_triples") as [->|Hneq].
    + now apply Hsmall.
    + now apply Hother.
Qed.

(** *** Extra X21 *)

Lemma geometric_loop_closed (factor : Z) (steps : nat) :
  forall (n : Z) (ns : list Z),
    geometric_loop steps factor n ns
    = ns ++ map (fun i => (n * factor ^ Z.of_nat i)%Z) (seq 0 steps).
Proof.
  induction steps as [|steps IH]; intros n ns.
  - simpl. now rewrite app_nil_r.
  - cbn [geometric_loop]. rewrite IH, <- app_assoc. f_equal.
    cbn [seq map app]. f_equal; [simpl; lia|].
    rewrite <- seq_shift, map_map. apply map_ext.
    intros i. rewrite Nat2Z.inj_succ, Z.pow_succ_r by lia. lia.
Qed.

(** X21: [geometric_ns(start, factor, steps)] is the list of the [steps]
    sizes [start · factor^i] for [i = 0, ..., steps − 1], and the empty list
    when [steps] is 0 or negative. *)
Theorem X21_geometric_ns_closed_form (start factor steps : Z) :
  geometric_ns start factor steps
  = map (fun i => (start * factor ^ Z.of_nat i)%Z) (seq 0 (Z.to_nat steps))
  /\ Z.of_nat (length (geometric_ns start factor steps)) = Z.max 0 steps.
Proof.
  assert (H : geometric_ns start factor steps
              = map (fun i => (start * factor ^ Z.of_nat i)%Z) (seq 0 (Z.to_nat steps))).
  { unfold geometric_ns. now rewrite geometric_loop_closed. }
  split; [exact H|]. rewrite H, length_map, length_seq. lia.
Qed.

(** *** Extra X22 *)

Lemma map_seq_increasing (g : nat -> Z) (len : nat) :
  (forall i j, (i < j)%nat -> (g i < g j)%Z) ->
  forall a, StronglySorted Z.lt (map g (seq a len)).
Proof.
  intros Hg. induction len as [|len IH]; intros a; [constructor|].
  cbn [seq map]. constructor; [apply IH|].
  apply Forall_forall. intros y Hy. apply in_map_iff in Hy.
  destruct Hy as (i & <- & Hi). apply in_seq in Hi. apply Hg. lia.
Qed.

Lemma nth_error_seq_inv (len : nat) :
  forall a i x, nth_error (seq a len) i = Some x -> x = (a + i)%nat.
Proof.
  induction len as [|len IH]; intros a i x H.
  - destruct i; discriminate.
  - destruct i as [|i]; simpl in H.
    + injection H as <-. lia.
    + apply IH in H. lia.
Qed.

(** X22: with a start of at least 1 and a factor of at least 2,
    [geometric_ns] returns positive sizes in strictly increasing order, each
    at least twice the one before: sizes that the size parser of the command
    line would accept. *)
Theorem X22_geometric_ns_positive_increasing (start factor steps : Z) :
  (1 <= start)%Z -> (2 <= factor)%Z ->
  Forall (fun n => (1 <= n)%Z) (geometric_ns start factor steps)
  /\ StronglySorted Z.lt (geometric_ns start factor steps)
  /\ (forall i a b,
        nth_error (geometric_ns start factor steps) i = Some a ->
        nth_error (geometric_ns start factor steps) (S i) = Some b ->
        (b = a * factor /\ 2 * a <= b)%Z).
Proof.
  intros Hs Hf.
  unfold geometric_ns. rewrite geometric_loop_closed. cbn [app].
  split; [|split].
  - apply Forall_forall. intros y Hy. apply in_map_iff in Hy.
    destruct Hy as (i & <- & _).
    pose proof (Z.pow_pos_nonneg factor (Z.of_nat i)) as Hp. nia.
  - apply map_seq_increasing. intros i j Hij.
    assert (Hp : (factor ^ Z.of_nat i < factor ^ Z.of_nat j)%Z)
      by (apply Z.pow_lt_mono_r; lia).
    nia.
  - intros i a b Ha Hb.
    rewrite nth_error_map in Ha, Hb.
    destruct (nth_error (seq 0 (Z.to_nat steps)) i) as [i'|] eqn:Ei; [|discriminate].
    destruct (nth_error (seq 0 (Z.to_nat steps)) (S i)) as [j'|] eqn:Ej; [|discriminate].
    simpl in Ha, Hb. injection Ha as <-. injection Hb as <-.
    apply nth_error_seq_inv in Ei, Ej. subst i' j'. cbn [Nat.add].
    rewrite Nat2Z.inj_succ, Z.pow_succ_r by lia.
    pose proof (Z.pow_pos_nonneg factor (Z.of_nat i)) as Hp. nia.
Qed.

(** The sizes 25, 50, 100, 200. *)
Lemma X22_geometric_ns_positive_increasing_witness :
  geometric_ns 25 2 4 = [25; 50; 100; 200]%Z
  /\ StronglySorted Z.lt (geometric_ns 25 2 4).
Proof.
  split; [reflexivity|].
  apply (X22_geometric_ns_positive_increasing 25 2 4); lia.
Defined.

(** *** Extra X23 *)

(** X23: for the case [cubic_triples], a non-empty list of sizes that are
    all above 120 is clamped to the single size 120, with the warning; the
    series then has one measurement, and fitting it raises the validation
    error for too few points. *)
Theorem X23_cubic_all_large_cannot_be_fitted
  (elapsed : nat -> Z -> R) (Input : Type) (func : Input -> Res unit)
  (make_input : Z -> Res Input) (ns : list Z) (cfg : BenchConfig.t) (k : nat) :
  ns <> [] -> (forall n, In n ns -> (120 < n)%Z) ->
  (1 <= BenchConfig.max_loops cfg)%Z ->
  (exists x, make_input 120%Z = Ok x /\ func x = Ok tt) ->
  _clamp_ns_for_case "cubic_triples" ns = Ok ([120%Z], Some clamp_warning)
  /\ exists r k',
       benchmark_series elapsed Input func make_input [120%Z] cfg k = Ok ([r], k')
       /\ BenchResult.n r = 120%Z
       /\ fit_all_models (fst (to_xy [r])) (snd (to_xy [r])) DEFAULT_MODELS
          = Raise (ValueError "Need at least 2 points to fit a model").
Proof.
  intros Hne Hall Hcap Hok.
  split; [now apply clamp_cubic_all_large|].
  destruct (series_loop_ok elapsed Input func make_input cfg [120%Z] Hcap) with
    (results := @nil BenchResult.t) (k := k) as (rs & k' & Hrs & Hmap).
  { intros n [<-|[]]. exact Hok. }
  destruct rs as [|r [|? ?]]; try discriminate.
  injection Hmap as Hn.
  exists r, k'. split; [exact Hrs|]. split; [exact Hn|].
  unfold DEFAULT_MODELS. apply fit_all_models_raises.
  apply fit_model_too_short; [reflexivity|simpl; lia].
Qed.

(** The sizes 200 and 400. *)
Lemma X23_cubic_all_large_cannot_be_fitted_witness :
  _clamp_ns_for_case "cubic_triples" [200; 400]%Z = Ok ([120%Z], Some clamp_warning)
  /\ exists r k',
       benchmark_series (deterministic unit_time) Z quiet_func id_factory [120%Z]
         BenchConfig.default 0%nat = Ok ([r], k')
       /\ BenchResult.n r = 120%Z
       /\ fit_all_models (fst (to_xy [r])) (snd (to_xy [r])) DEFAULT_MODELS
          = Raise (ValueError "Need at least 2 points to fit a model").
Proof.
  apply (X23_cubic_all_large_cannot_be_fitted (deterministic unit_time) Z quiet_func
           id_factory [200; 400]%Z BenchConfig.default 0%nat).
  - discriminate.
  - intros n [<-|[<-|[]]]; lia.
  - simpl. lia.
  - exists 120%Z. split; reflexivity.
Defined.

(** *** Extra X24 *)

Lemma length_make_list (n : Z) : length (_make_list n) = Z.to_nat n.
Proof. unfold _make_list. now rewrite length_map, length_seq. Qed.

Lemma constant_index_positive (n : Z) :
  (1 <= n)%Z -> constant_index_func (_make_list n) = Ok (n / 2)%Z.
Proof.
  intros Hn. unfold constant_index_func. rewrite length_make_list.
  unfold _make_list. rewrite nth_error_map.
  assert (Hlt : (Z.to_nat n / 2 < Z.to_nat n)%nat) by (apply Nat.div_lt; lia).
  assert (Hnth : nth_error (seq 0 (Z.to_nat n)) (Z.to_nat n / 2)
                 = Some (Z.to_nat n / 2)%nat).
  { rewrite (nth_error_nth' _ 0%nat) by (rewrite length_seq; exact Hlt).
    now rewrite seq_nth. }
  rewrite Hnth. cbn [option_map]. f_equal.
  rewrite Nat2Z.inj_div, Z2Nat.id by lia. reflexivity.
Qed.

Lemma constant_index_nonpositive (n : Z) :
  (n <= 0)%Z -> constant_index_func (_make_list n) = Raise IndexError.
Proof.
  intros Hn. unfold constant_index_func, _make_list.
  replace (Z.to_nat n) with 0%nat by lia. reflexivity.
Qed.

(** X24: the callable of the case [constant_index] returns the middle
    element [n // 2] of [list(range(n))] for every size from 1 on and raises
    [IndexError] for a size of 0 or less; [benchmark_series] on that case
    therefore raises [IndexError] at the first non-positive size it
    meets. *)
Theorem X24_constant_index_fails_on_nonpositive_size
  (elapsed : nat -> Z -> R) (cfg : BenchConfig.t) (k : nat)
  (pre post : list Z) (n : Z) :
  (1 <= BenchConfig.max_loops cfg)%Z ->
  (forall n', In n' pre -> (1 <= n')%Z) -> (n <= 0)%Z ->
  (forall n', (1 <= n')%Z -> constant_index_func (_make_list n') = Ok (n' / 2)%Z)
  /\ constant_index_func (_make_list n) = Raise IndexError
  /\ benchmark_series elapsed (list Z) (drop_value constant_index_func)
       constant_index_make_input (pre ++ n :: post) cfg k = Raise IndexError.
Proof.
  intros Hcap Hpre Hn.
  split; [exact constant_index_positive|].
  split; [now apply constant_index_nonpositive|].
  unfold benchmark_series.
  destruct (series_loop_prefix elapsed (list Z) (drop_value constant_index_func)
              constant_index_make_input cfg pre (n :: post) Hcap) with
    (results := @nil BenchResult.t) (k := k) as (rs & k' & Hrun & _).
  { intros n' Hin. exists (_make_list n'). split; [reflexivity|].
    unfold drop_value. now rewrite (constant_index_positive n' (Hpre n' Hin)). }
  rewrite Hrun. cbn [series_loop]. unfold bind.
  rewrite (benchmark_one_n_propagates elapsed (list Z) (drop_value constant_index_func)
             constant_index_make_input n cfg k' (_make_list n) IndexError);
    [reflexivity|reflexivity|].
  unfold drop_value. now rewrite (constant_index_nonpositive n Hn).
Qed.

(** The sizes 4, 0 under the default configuration. *)
Lemma X24_constant_index_fails_on_nonpositive_size_witness :
  constant_index_func (_make_list 4) = Ok 2%Z
  /\ benchmark_series (deterministic unit_time) (list Z)
       (drop_value constant_index_func) constant_index_make_input
       [4%Z; 0%Z] BenchConfig.default 0%nat = Raise IndexError.
Proof.
  destruct (X24_constant_index_fails_on_nonpositive_size (deterministic unit_time)
              BenchConfig.default 0%nat [4%Z] [] 0%Z) as (Hpos & _ & Hraise).
  - simpl. lia.
  - intros n' [<-|[]]. lia.
  - lia.
  - split; [|exact Hraise]. apply (Hpos 4%Z). lia.
Defined.

(** *** Constant durations *)




(** *** Extra X25 *)



(** *** Extra X26 *)




(** *** Extra X27 *)



